(** * Gift card validator: a shallow embedding of [server.js]

    The server keeps two module-level variables, [giftCards] (a plain
    JavaScript object used as a map from code to card) and [currentPrice]
    (an object or [null]), mirrors them to two JSON files after every
    mutation, and exposes them through eight Express routes.

    The embedding follows the file top to bottom: JavaScript values as
    they arrive in a parsed JSON body, property lookup on [giftCards]
    (own properties first, then [Object.prototype]), the two files,
    [loadData] and [saveData], [authenticate], and one definition per
    route.  Handlers run in a small state-and-exception monad over the
    process state.  Express and body-parser are taken for granted: a
    request reaches its handler with a parsed body, and what the handler
    passes to [res.json] is the response.  A request runs to completion
    before the next one starts; the interleaving of two handlers at their
    [await saveData()] is not part of the model. *)

From Stdlib Require Import ZArith SpecFloat Ascii String DecimalString.
From stdpp Require Import gmap strings list fin_maps.

Set Warnings "-register-all".

Local Open Scope string_scope.

(** * The model *)

(** ** JavaScript values of a parsed request body *)

(** A JavaScript number is an IEEE 754 double; [spec_float] is the
    Standard Library's datatype for them. *)
Abbreviation number := spec_float.

(** A value of a parsed JSON body, and [undefined] for a property the
    body does not have.  Strings are kept as Rocq strings, one character
    per code unit: the server only ever compares strings, measures their
    length and tests them against [[A-Z0-9]].  The [typeof] tests of the
    source are the pattern matches on the constructors. *)
Inductive Value :=
| VUndefined
| VNull
| VBool (b : bool)
| VNum (n : number)
| VStr (s : string)
| VArr (items : list Value)
| VObj (fields : list (string * Value)).

Definition is_zero (n : number) : bool :=
  match n with S754_zero _ => true | _ => false end.

Definition is_nan (n : number) : bool :=
  match n with S754_nan => true | _ => false end.

Definition is_finite (n : number) : bool :=
  match n with S754_zero _ | S754_finite _ _ _ => true | _ => false end.

Definition zero : number := S754_zero false.

(** [ToBoolean]: the falsy values are [undefined], [null], [false],
    [+0], [-0], [NaN] and the empty string. *)
Definition truthy (v : Value) : bool :=
  match v with
  | VUndefined | VNull => false
  | VBool b => b
  | VNum n => negb (is_zero n || is_nan n)
  | VStr s => negb (String.eqb s "")
  | VArr _ | VObj _ => true
  end.

(** [amount < 0] on a number: false for [NaN], [-0] and [+0]. *)
Definition lt_zero (n : number) : bool := SFltb n zero.

(** ** The data model *)

(** An amount held in memory is the number taken from a request body.
    After a restart it is whatever [JSON.parse] finds in the file, which
    is a number or [null]. *)
Inductive Amount :=
| Num (n : number)
| Null.

(** The object [{ amount, currency }] stored under a card's [price]. *)
Record CardPrice := {
  amount : Amount;
  currency : string;
}.

(** A value of [giftCards]: [{ code, status, createdAt }], to which the
    admin routes add [updatedAt] and [price]. *)
Record Card := {
  code : string;
  status : string;
  createdAt : string;
  updatedAt : option string;
  price : option CardPrice;
}.

(** The object assigned to [currentPrice]. *)
Record PriceRecord := {
  price_amount : Amount;
  price_currency : string;
  price_updatedAt : string;
}.

(** [giftCards] is created by the literal [{}] (or by [JSON.parse]), so
    it inherits from [Object.prototype].  The admin routes index it with
    an unchecked key and assign [status], [updatedAt] and [price] to what
    they find, which may be an inherited object.  [Props] holds the
    properties such an object has received. *)
Record Props := {
  added_status : option string;
  added_updatedAt : option string;
  added_price : option CardPrice;
}.

Definition no_props : Props :=
  {| added_status := None; added_updatedAt := None; added_price := None |}.

Record Builtins := {
  (* properties added to the functions found on Object.prototype,
     by the name under which Object.prototype holds them *)
  functions : gmap string Props;
  (* properties added to Object.prototype itself *)
  prototype : Props;
  (* properties added to the object stored at Object.prototype.price *)
  prototype_price : Props;
}.

Definition pristine : Builtins :=
  {| functions := ∅; prototype := no_props; prototype_price := no_props |}.

(** The function-valued properties of [Object.prototype]. *)
Definition prototype_functions : list string :=
  [ "constructor"; "__defineGetter__"; "__defineSetter__"; "hasOwnProperty";
    "__lookupGetter__"; "__lookupSetter__"; "isPrototypeOf";
    "propertyIsEnumerable"; "toString"; "valueOf"; "toLocaleString" ].

(** ** The data directory *)

(** A file either does not exist ([ENOENT]), cannot be read or parsed, or
    holds a JSON document.  A document is represented by the value
    [JSON.parse] returns for it; the files are written by [saveData] only,
    so the cards file holds a map of cards and the price file a price
    record or [null]. *)
Inductive File (A : Type) :=
| Missing
| Corrupt
| Content (a : A).
Arguments Missing {A}.
Arguments Corrupt {A}.
Arguments Content {A} a.

Record Disk := {
  CARDS_FILE : File (gmap string Card);
  PRICE_FILE : File (option PriceRecord);
}.

Definition empty_disk : Disk := {| CARDS_FILE := Missing; PRICE_FILE := Missing |}.

(** What the file system does with one [fs.writeFile]: it writes the
    data, or fails before touching the file, or fails after truncating
    it (write is not atomic). *)
Inductive WriteOutcome := Written | Refused | Truncated.

Record IO := {
  cards_write : WriteOutcome;
  price_write : WriteOutcome;
}.

Definition io_ok : IO := {| cards_write := Written; price_write := Written |}.

(** ** Process state *)

Record World := {
  giftCards : gmap string Card;
  currentPrice : option PriceRecord;
  builtins : Builtins;
  disk : Disk;
  console_error : list string;
}.

Definition with_giftCards (g : gmap string Card) (w : World) : World :=
  {| giftCards := g; currentPrice := currentPrice w; builtins := builtins w;
     disk := disk w; console_error := console_error w |}.

Definition with_currentPrice (p : option PriceRecord) (w : World) : World :=
  {| giftCards := giftCards w; currentPrice := p; builtins := builtins w;
     disk := disk w; console_error := console_error w |}.

Definition with_builtins (b : Builtins) (w : World) : World :=
  {| giftCards := giftCards w; currentPrice := currentPrice w; builtins := b;
     disk := disk w; console_error := console_error w |}.

Definition with_disk (d : Disk) (w : World) : World :=
  {| giftCards := giftCards w; currentPrice := currentPrice w; builtins := builtins w;
     disk := d; console_error := console_error w |}.

Definition with_console_error (l : list string) (w : World) : World :=
  {| giftCards := giftCards w; currentPrice := currentPrice w; builtins := builtins w;
     disk := disk w; console_error := l |}.

(** ** Handlers as state-and-exception computations *)

Inductive Exception :=
| TypeError
| SyntaxError
| ENOENT
| WriteError.

Inductive Result (A : Type) :=
| Return (a : A)
| Throw (e : Exception).
Arguments Return {A} a.
Arguments Throw {A} e.

Definition M (A : Type) : Type := World → Result A * World.

Definition ret {A} (a : A) : M A := λ w, (Return a, w).

Definition bind {A B} (m : M A) (k : A → M B) : M B :=
  λ w, match m w with
       | (Return a, w') => k a w'
       | (Throw e, w') => (Throw e, w')
       end.

Definition throw {A} (e : Exception) : M A := λ w, (Throw e, w).

Definition try_catch {A} (body : M A) (handler : Exception → M A) : M A :=
  λ w, match body w with
       | (Return a, w') => (Return a, w')
       | (Throw e, w') => handler e w'
       end.

Definition get {A} (f : World → A) : M A := λ w, (Return (f w), w).

Definition modify (f : World → World) : M unit := λ w, (Return tt, f w).

#[global] Instance M_ret : MRet M := @ret.

#[global] Instance M_bind : MBind M := λ A B k m, bind m k.

Definition console_error_log (line : string) : M unit :=
  modify (λ w, with_console_error (console_error w ++ [line]) w).

(** ** JSON

    [JSON.stringify] followed by [JSON.parse] returns strings, [null] and
    the shape of objects as they were.  Numbers are the exception: a
    number that is not finite is written as [null], and [-0] is written
    as [0]. *)

Definition JSON_number (n : number) : Amount :=
  if is_finite n then Num (if is_zero n then zero else n) else Null.

Definition JSON_Amount (a : Amount) : Amount :=
  match a with
  | Num n => JSON_number n
  | Null => Null
  end.

Definition JSON_CardPrice (p : CardPrice) : CardPrice :=
  {| amount := JSON_Amount (amount p); currency := currency p |}.

Definition JSON_Card (c : Card) : Card :=
  {| code := code c; status := status c; createdAt := createdAt c;
     updatedAt := updatedAt c; price := JSON_CardPrice <$> price c |}.

Definition JSON_PriceRecord (p : PriceRecord) : PriceRecord :=
  {| price_amount := JSON_Amount (price_amount p);
     price_currency := price_currency p;
     price_updatedAt := price_updatedAt p |}.

(** The document written for [giftCards] and for [currentPrice]. *)
Definition JSON_giftCards (g : gmap string Card) : gmap string Card :=
  JSON_Card <$> g.

Definition JSON_currentPrice (p : option PriceRecord) : option PriceRecord :=
  JSON_PriceRecord <$> p.

(** ** Persistence: [loadData] and [saveData] *)

Definition writeFile {A} (o : WriteOutcome) (data : A) (f : File A)
  : Result unit * File A :=
  match o with
  | Written => (Return tt, Content data)
  | Refused => (Throw WriteError, f)
  | Truncated => (Throw WriteError, Corrupt)
  end.

Definition write_CARDS_FILE (o : WriteOutcome) (data : gmap string Card) : M unit :=
  λ w, let '(r, f) := writeFile o data (CARDS_FILE (disk w)) in
       (r, with_disk {| CARDS_FILE := f; PRICE_FILE := PRICE_FILE (disk w) |} w).

Definition write_PRICE_FILE (o : WriteOutcome) (data : option PriceRecord) : M unit :=
  λ w, let '(r, f) := writeFile o data (PRICE_FILE (disk w)) in
       (r, with_disk {| CARDS_FILE := CARDS_FILE (disk w); PRICE_FILE := f |} w).

(** [JSON.parse(await fs.readFile(file, 'utf8'))] *)
Definition read_and_parse {A} (f : File A) : M A :=
  match f with
  | Missing => throw ENOENT
  | Corrupt => throw SyntaxError
  | Content a => ret a
  end.

Definition is_ENOENT (e : Exception) : bool :=
  match e with ENOENT => true | _ => false end.

Definition loadData : M unit :=
  try_catch
    (try_catch
       (f ← get (λ w, CARDS_FILE (disk w));
        cardsData ← read_and_parse f;
        modify (with_giftCards cardsData))
       (λ error,
          (if negb (is_ENOENT error)
           then console_error_log "Error loading gift cards:"
           else ret tt);;
          modify (with_giftCards ∅));;
     try_catch
       (f ← get (λ w, PRICE_FILE (disk w));
        priceData ← read_and_parse f;
        modify (with_currentPrice priceData))
       (λ error,
          (if negb (is_ENOENT error)
           then console_error_log "Error loading price data:"
           else ret tt);;
          modify (with_currentPrice None)))
    (λ error, console_error_log "Error in loadData:").

Definition saveData (io : IO) : M unit :=
  try_catch
    (g ← get giftCards;
     write_CARDS_FILE (cards_write io) (JSON_giftCards g);;
     p ← get currentPrice;
     write_PRICE_FILE (price_write io) (JSON_currentPrice p))
    (λ error, console_error_log "Error saving data:").

(** A process started on a data directory: module initialisation
    ([giftCards = {}], [currentPrice = null]) followed by [loadData].
    [ensureDataDirectory] only creates the directory and logs a failure;
    whether a later write succeeds is the [io] of the request. *)
Definition fresh (d : Disk) : World :=
  {| giftCards := ∅; currentPrice := None; builtins := pristine;
     disk := d; console_error := [] |}.

Definition startServer (d : Disk) : World := (loadData (fresh d)).2.

(** ** Property access on [giftCards] *)

(** What [giftCards[key]] evaluates to. *)
Inductive Ref :=
| RUndefined
| RCard (c : Card)                                (* an own property *)
| RFunction (name : string)                       (* a method of Object.prototype *)
| RPrototype (own : Props)                        (* Object.prototype, through __proto__ *)
| RPrototypePrice (p : CardPrice) (own : Props)   (* Object.prototype.price *)
| RString (s : string).                           (* Object.prototype.status / updatedAt *)

Definition inherited (b : Builtins) (key : string) : Ref :=
  if decide (key = "__proto__") then RPrototype (prototype b)
  else if decide (key ∈ prototype_functions) then RFunction key
  else if decide (key = "status") then
    from_option RString RUndefined (added_status (prototype b))
  else if decide (key = "updatedAt") then
    from_option RString RUndefined (added_updatedAt (prototype b))
  else if decide (key = "price") then
    from_option (λ p, RPrototypePrice p (prototype_price b)) RUndefined
                (added_price (prototype b))
  else RUndefined.

Definition lookup_giftCards (w : World) (key : string) : Ref :=
  match giftCards w !! key with
  | Some c => RCard c
  | None => inherited (builtins w) key
  end.

Definition truthy_ref (r : Ref) : bool :=
  match r with
  | RUndefined => false
  | RString s => negb (String.eqb s "")
  | _ => true
  end.

(** The three assignments the admin routes make to [giftCards[code]]. *)
Inductive Assignment :=
| SetStatus (s : string)
| SetUpdatedAt (t : string)
| SetPrice (p : CardPrice).

Definition assign_Card (a : Assignment) (c : Card) : Card :=
  match a with
  | SetStatus s =>
      {| code := code c; status := s; createdAt := createdAt c;
         updatedAt := updatedAt c; price := price c |}
  | SetUpdatedAt t =>
      {| code := code c; status := status c; createdAt := createdAt c;
         updatedAt := Some t; price := price c |}
  | SetPrice p =>
      {| code := code c; status := status c; createdAt := createdAt c;
         updatedAt := updatedAt c; price := Some p |}
  end.

Definition assign_Props (a : Assignment) (o : Props) : Props :=
  match a with
  | SetStatus s =>
      {| added_status := Some s; added_updatedAt := added_updatedAt o;
         added_price := added_price o |}
  | SetUpdatedAt t =>
      {| added_status := added_status o; added_updatedAt := Some t;
         added_price := added_price o |}
  | SetPrice p =>
      {| added_status := added_status o; added_updatedAt := added_updatedAt o;
         added_price := Some p |}
  end.

Definition assign_Builtins (r : Ref) (a : Assignment) (b : Builtins) : Builtins :=
  match r with
  | RFunction name =>
      {| functions := <[name := assign_Props a (default no_props (functions b !! name))]>
                        (functions b);
         prototype := prototype b; prototype_price := prototype_price b |}
  | RPrototype _ =>
      {| functions := functions b;
         prototype := assign_Props a (prototype b);
         (* a new object under Object.prototype.price starts without extras *)
         prototype_price := match a with
                            | SetPrice _ => no_props
                            | _ => prototype_price b
                            end |}
  | RPrototypePrice _ _ =>
      {| functions := functions b; prototype := prototype b;
         prototype_price := assign_Props a (prototype_price b) |}
  | _ => b
  end.

(** [giftCards[key].prop = value].  The module is not in strict mode, so
    an assignment to a property of a string is silently dropped; on
    [undefined] it throws. *)
Definition assign (key : string) (a : Assignment) : M unit :=
  r ← get (λ w, lookup_giftCards w key);
  match r with
  | RUndefined => throw TypeError
  | RCard c => modify (λ w, with_giftCards (<[key := assign_Card a c]> (giftCards w)) w)
  | RString _ => ret tt
  | _ => modify (λ w, with_builtins (assign_Builtins r a (builtins w)) w)
  end.

(** ** Responses *)

Record Stats := {
  total : nat;
  accepted : nat;
  declined : nat;
  pending : nat;
}.

(** The object passed to [res.json]; every body but [Message] carries
    [success: true].  A [card] is the value of [giftCards[code]] at that
    point. *)
Inductive Body :=
| Message (success : bool) (message : string)
| PriceBody (price : option PriceRecord)
| PriceUpdatedBody (message : string) (price : option PriceRecord)
| ValidateBody (card : Ref) (globalPrice : option PriceRecord)
| CardsBody (cards : list Card)
| CardBody (message : string) (card : Ref)
| StatsBody (stats : Stats).

Record Response := {
  statusCode : nat;
  body : Body;
}.

Definition json (b : Body) : Response := {| statusCode := 200; body := b |}.

Definition failure (st : nat) (message : string) : Response :=
  {| statusCode := st; body := Message false message |}.

Definition InvalidFormat : Response := failure 400 "Invalid gift card format".

Definition InvalidStatus : Response := failure 400 "Invalid status".

Definition InvalidAmount : Response := failure 400 "Invalid price amount".

Definition InvalidCurrency : Response := failure 400 "Invalid currency".

Definition NotFound : Response := failure 404 "Gift card not found".

Definition Unauthorized : Response := failure 401 "Invalid credentials".

Definition InternalError : Response := failure 500 "Internal server error".

(** ** Routes that need no key conversion *)

(** [new Date().toISOString()] is the argument [now] of a handler; the
    outcome of the writes made by its [saveData] is the argument [io].
    A handler receives the values its first line destructures from
    [req.body], [VUndefined] standing for [undefined]. *)

(** [GET /api/price] *)
Definition get_price : M Response :=
  p ← get currentPrice;
  ret (json (PriceBody p)).

(** [POST /api/admin/price], after [authenticate] *)
Definition admin_price (now : string) (io : IO) (amount currency : Value) : M Response :=
  try_catch
    (match amount with
     | VNum n =>
         if lt_zero n then ret InvalidAmount
         else
           match currency with
           | VStr c =>
               if negb (truthy currency) then ret InvalidCurrency
               else
                 modify (with_currentPrice
                           (Some {| price_amount := Num n; price_currency := c;
                                    price_updatedAt := now |}));;
                 saveData io;;
                 p ← get currentPrice;
                 ret (json (PriceUpdatedBody "Price updated successfully" p))
           | _ => ret InvalidCurrency      (* typeof currency !== 'string' *)
           end
     | _ => ret InvalidAmount              (* typeof amount !== 'number' *)
     end)
    (λ error,
       console_error_log "Error updating price:";;
       ret InternalError).

Definition upper_or_digit (a : ascii) : bool :=
  let n := nat_of_ascii a in
  ((65 <=? n) && (n <=? 90) || (48 <=? n) && (n <=? 57))%nat.

(** [/^[A-Z0-9]{1,25}$/.test(s)] *)
Definition CODE_PATTERN (s : string) : bool :=
  let cs := list_ascii_of_string s in
  (1 <=? length cs)%nat && (length cs <=? 25)%nat && forallb upper_or_digit cs.

(** [POST /api/validate] *)
Definition validate (now : string) (io : IO) (code : Value) : M Response :=
  try_catch
    (match code with
     | VStr s =>
         if negb (truthy code) || (25 <? String.length s)%nat || negb (CODE_PATTERN s)
         then ret InvalidFormat
         else
           r ← get (λ w, lookup_giftCards w s);
           (if negb (truthy_ref r) then
              modify (λ w, with_giftCards
                             (<[s := {| code := s; status := "pending"; createdAt := now;
                                        updatedAt := None; price := None |}]>
                                (giftCards w)) w);;
              saveData io
            else ret tt);;
           card ← get (λ w, lookup_giftCards w s);
           p ← get currentPrice;
           ret (json (ValidateBody card p))
     | _ => ret InvalidFormat              (* !code || typeof code !== 'string' *)
     end)
    (λ error,
       console_error_log "Error validating card:";;
       ret InternalError).

(** [Object.values(giftCards)]; the order of the properties is not
    modelled, the counts below do not depend on it. *)
Definition Object_values (g : gmap string Card) : list Card := (map_to_list g).*2.

(** [POST /api/admin/cards], after [authenticate] *)
Definition admin_cards : M Response :=
  g ← get giftCards;
  ret (json (CardsBody (Object_values g))).

Definition count_status (s : string) (cards : list Card) : nat :=
  length (filter (λ card, status card = s) cards).

(** [POST /api/admin/stats], after [authenticate] *)
Definition admin_stats : M Response :=
  g ← get giftCards;
  let cards := Object_values g in
  let stats := {| total := length cards;
                  accepted := count_status "accepted" cards;
                  declined := count_status "declined" cards;
                  pending := count_status "pending" cards |} in
  ret (json (StatsBody stats)).

(** ** Routes that index [giftCards] with an unchecked value *)

Definition STATUSES : list string := ["pending"; "accepted"; "declined"].

(** [['pending', 'accepted', 'declined'].includes(status)], returning the
    element found. *)
Definition includes (l : list string) (v : Value) : option string :=
  match v with
  | VStr s => if decide (s ∈ l) then Some s else None
  | _ => None
  end.

Definition has_own (name : string) (fields : list (string * Value)) : bool :=
  existsb (λ kv, String.eqb kv.1 name) fields.

Section Server.

(** [Number::toString] of the platform, and the two credentials read
    from the environment. *)
Variable NumberToString : number → string.

Variables ADMIN_USERNAME ADMIN_PASSWORD : string.

(** [ToString] on a value that came out of [JSON.parse]; [None] stands
    for the [TypeError] of an object that cannot be converted to a
    primitive: an object with an own [toString] property, which is a JSON
    value and so not callable.  An array is joined with commas, [null]
    elements giving the empty string. *)
Fixpoint ToString (v : Value) : option string :=
  match v with
  | VUndefined => Some "undefined"
  | VNull => Some "null"
  | VBool b => Some (if b then "true" else "false")
  | VNum n => Some (NumberToString n)
  | VStr s => Some s
  | VArr items =>
      (fix join (l : list Value) : option string :=
         match l with
         | [] => Some ""
         | x :: rest =>
             let element := match x with
                            | VUndefined | VNull => Some ""
                            | _ => ToString x
                            end in
             match rest with
             | [] => element
             | _ => s ← element; t ← join rest; Some (s ++ "," ++ t)
             end
         end) items
  | VObj fields =>
      if has_own "toString" fields then None else Some "[object Object]"
  end.

(** [giftCards[code]] *)
Definition ToPropertyKey (v : Value) : M string :=
  match ToString v with
  | Some key => ret key
  | None => throw TypeError
  end.

Definition giftCards_at (code : Value) : M Ref :=
  key ← ToPropertyKey code;
  get (λ w, lookup_giftCards w key).

Definition assign_at (code : Value) (a : Assignment) : M unit :=
  key ← ToPropertyKey code;
  assign key a.

(** [!code || !giftCards[code]] *)
Definition not_found (code : Value) : M bool :=
  if negb (truthy code) then ret true
  else r ← giftCards_at code; ret (negb (truthy_ref r)).

(** [POST /api/admin/cards/status], after [authenticate] *)
Definition admin_cards_status (now : string) (io : IO) (code status : Value) : M Response :=
  try_catch
    (missing ← not_found code;
     if missing : bool then ret NotFound
     else
       match includes STATUSES status with
       | None => ret InvalidStatus
       | Some s =>
           assign_at code (SetStatus s);;
           assign_at code (SetUpdatedAt now);;
           saveData io;;
           card ← giftCards_at code;
           ret (json (CardBody "Status updated successfully" card))
       end)
    (λ error,
       console_error_log "Error updating card status:";;
       ret InternalError).

(** [POST /api/admin/cards/price], after [authenticate] *)
Definition admin_cards_price (now : string) (io : IO) (code amount : Value) : M Response :=
  try_catch
    (missing ← not_found code;
     if missing : bool then ret NotFound
     else
       match amount with
       | VNum n =>
           if lt_zero n then ret InvalidAmount
           else
             p ← get currentPrice;
             let currency := match p with
                             | Some p => price_currency p
                             | None => "USD"
                             end in
             assign_at code (SetPrice {| amount := Num n; currency := currency |});;
             assign_at code (SetUpdatedAt now);;
             saveData io;;
             card ← giftCards_at code;
             ret (json (CardBody "Price updated successfully" card))
       | _ => ret InvalidAmount            (* typeof amount !== 'number' *)
       end)
    (λ error,
       console_error_log "Error updating card price:";;
       ret InternalError).

(** ** The application *)

Definition strict_equals (v : Value) (s : string) : bool :=
  match v with
  | VStr t => String.eqb t s
  | _ => false
  end.

Definition authenticate (username password : Value) (next : M Response) : M Response :=
  if strict_equals username ADMIN_USERNAME && strict_equals password ADMIN_PASSWORD
  then next
  else ret Unauthorized.

Inductive Request :=
| POST_admin_login (username password : Value)
| GET_price
| POST_admin_price (username password amount currency : Value)
| POST_validate (code : Value)
| POST_admin_cards (username password : Value)
| POST_admin_cards_status (username password code status : Value)
| POST_admin_cards_price (username password code amount : Value)
| POST_admin_stats (username password : Value).

Definition app (now : string) (io : IO) (req : Request) : M Response :=
  match req with
  | POST_admin_login u p =>
      authenticate u p (ret (json (Message true "Login successful")))
  | GET_price => get_price
  | POST_admin_price u p amount currency =>
      authenticate u p (admin_price now io amount currency)
  | POST_validate code => validate now io code
  | POST_admin_cards u p => authenticate u p admin_cards
  | POST_admin_cards_status u p code status =>
      authenticate u p (admin_cards_status now io code status)
  | POST_admin_cards_price u p code amount =>
      authenticate u p (admin_cards_price now io code amount)
  | POST_admin_stats u p => authenticate u p admin_stats
  end.

(** The states a deployment can be in: it starts on an empty data
    directory, serves requests, may save on a termination signal, and may
    be started again on whatever the directory then holds. *)
Inductive reachable : World → Prop :=
| reachable_start : reachable (startServer empty_disk)
| reachable_request w now io req :
    reachable w → reachable (app now io req w).2
| reachable_signal w io :
    reachable w → reachable (saveData io w).2
| reachable_restart w :
    reachable w → reachable (startServer (disk w)).

(** * The vocabulary of the properties *)

(** ** Records and numbers that the statements name *)

Definition pending_card (s now : string) : Card :=
  {| code := s; status := "pending"; createdAt := now;
     updatedAt := None; price := None |}.

Definition with_status (s now : string) (c : Card) : Card :=
  {| code := code c; status := s; createdAt := createdAt c;
     updatedAt := Some now; price := price c |}.

Definition with_price (p : CardPrice) (now : string) (c : Card) : Card :=
  {| code := code c; status := status c; createdAt := createdAt c;
     updatedAt := Some now; price := Some p |}.

Definition one : number := S754_finite false 1 0.

Definition minus_one : number := S754_finite true 1 0.

Definition infinity : number := S754_infinity false.

(** ** The contract of the price route *)

(** The two conditions in the words of the contract. *)
Definition nonneg_number (v : Value) : Prop :=
  ∃ n, v = VNum n ∧ SFleb zero n = true.

Definition nonempty_string (v : Value) : Prop :=
  ∃ c, v = VStr c ∧ c ≠ "".

(** ** What every reachable state satisfies *)

(** A record sits under its own code, the code matches the pattern, and
    the status is one of the three. *)
Definition card_ok (k : string) (c : Card) : Prop :=
  code c = k ∧ CODE_PATTERN k = true ∧ status c ∈ STATUSES.

Definition cards_ok (g : gmap string Card) : Prop := map_Forall card_ok g.

Definition file_ok (f : File (gmap string Card)) : Prop :=
  match f with
  | Content g => cards_ok g
  | _ => True
  end.

Definition consistent (w : World) : Prop :=
  cards_ok (giftCards w) ∧ file_ok (CARDS_FILE (disk w)).

(** An assignment keeps a record well formed when the status it writes,
    if any, is one of the three. *)
Definition assignment_ok (a : Assignment) : Prop :=
  match a with
  | SetStatus s => s ∈ STATUSES
  | _ => True
  end.

(** A computation keeps [P], whether it returns or throws. *)
Definition preserves {A} (P : World → Prop) (m : M A) : Prop :=
  ∀ w, P w → P (m w).2.

(** ** Exceptions and failed writes *)

(** A handler that ends in a [catch] block answers every request. *)
Definition answers {A} (m : M A) : Prop := ∀ w, ∃ a, (m w).1 = Return a.

(** Two states with the same memory: they differ at most in the files
    and in what was logged. *)
Definition same_memory (w w' : World) : Prop :=
  giftCards w = giftCards w'
  ∧ currentPrice w = currentPrice w'
  ∧ builtins w = builtins w'.

(** Two computations that, from the same memory, give the same result
    and the same memory. *)
Definition agrees {A} (m m' : M A) : Prop :=
  ∀ w w', same_memory w w' →
    (m w).1 = (m' w').1 ∧ same_memory (m w).2 (m' w').2.

(** ** Restart *)

(** An amount that JSON writes and reads back unchanged: [null], or a
    finite number other than [-0]. *)
Definition restorable (a : Amount) : Prop :=
  match a with
  | Num n => is_finite n = true ∧ n ≠ S754_zero true
  | Null => True
  end.

Definition restorable_memory (w : World) : Prop :=
  (∀ k c p, giftCards w !! k = Some c → price c = Some p → restorable (amount p))
  ∧ (∀ p, currentPrice w = Some p → restorable (price_amount p)).

(** ** What a request leaves alone *)

(** The records of [g] are still there, under the same code and with
    the same creation time. *)
Definition keeps_cards (g : gmap string Card) (w : World) : Prop :=
  ∀ k c, g !! k = Some c →
    ∃ c', giftCards w !! k = Some c' ∧ code c' = code c ∧ createdAt c' = createdAt c.

(** A request that carries no valid admin credentials. *)
Definition unauthenticated (req : Request) : Prop :=
  match req with
  | GET_price | POST_validate _ => True
  | POST_admin_login u p
  | POST_admin_price u p _ _
  | POST_admin_cards u p
  | POST_admin_cards_status u p _ _
  | POST_admin_cards_price u p _ _
  | POST_admin_stats u p => ¬ (u = VStr ADMIN_USERNAME ∧ p = VStr ADMIN_PASSWORD)
  end.

Definition is_price_update (req : Request) : bool :=
  match req with
  | POST_admin_price _ _ _ _ => true
  | _ => false
  end.

(** ** Durability *)

(** The files are current: a process started on them now would hold the
    card map and the price that JSON makes of the ones in memory. *)
Definition durable (w : World) : Prop :=
  giftCards (startServer (disk w)) = JSON_giftCards (giftCards w)
  ∧ currentPrice (startServer (disk w)) = JSON_currentPrice (currentPrice w).

(** How a request leaves the cards, the price and the files: untouched,
    or just saved. *)
Definition settled (io : IO) (w w' : World) : Prop :=
  (giftCards w' = giftCards w ∧ currentPrice w' = currentPrice w ∧ disk w' = disk w)
  ∨ ∃ w0, w' = (saveData io w0).2.

(** ** Statistics *)

(** The counts the stats route answers with in a state. *)
Definition stats_at (w : World) : option Stats :=
  match (admin_stats w).1 with
  | Return {| body := StatsBody stats |} => Some stats
  | _ => None
  end.

(** One more record with the status [name], or none. *)
Definition one_if (s name : string) : nat := if decide (s = name) then 1 else 0.

(** ** A concrete deployment

    The default credentials of the source, and [Number::toString] on the
    doubles the examples use: zero, the infinities, [NaN] and the integers
    below [2^53].  The other doubles need the shortest-digits algorithm of
    the language standard; no example depends on them and they are given
    the empty string here. *)

Definition integer_value (n : number) : option Z :=
  match n with
  | S754_zero _ => Some 0%Z
  | S754_finite s m e =>
      let z := if s then Zneg m else Zpos m in
      if (0 <=? e)%Z then Some (z * 2 ^ e)%Z
      else if (Zpos m mod 2 ^ (- e) =? 0)%Z then Some (z / 2 ^ (- e))%Z
      else None
  | _ => None
  end.

Definition sample_NumberToString (n : number) : string :=
  match n with
  | S754_nan => "NaN"
  | S754_infinity false => "Infinity"
  | S754_infinity true => "-Infinity"
  | _ =>
      match integer_value n with
      | Some z =>
          if (Z.abs z <? 2 ^ 53)%Z
          then DecimalString.NilZero.string_of_int (Z.to_int z)
          else ""
      | None => ""
      end
  end.

Definition t0 : string := "2024-01-01T00:00:00.000Z".

Definition t1 : string := "2024-01-02T00:00:00.000Z".

(** The state after [POST /api/validate {"code": "ABC123"}] on a fresh
    installation. *)
Definition example_world : World :=
  (validate t0 io_ok (VStr "ABC123") (startServer empty_disk)).2.

(** * Properties *)

(** ** Running the monad *)

Ltac run :=
  cbv beta delta
    [mbind M_bind mret M_ret bind ret get modify throw try_catch
     console_error_log] in *.

Lemma saveData_unfold (io : IO) (w : World) :
  saveData io w =
  match cards_write io, price_write io with
  | Written, Written =>
      (Return tt,
       with_disk {| CARDS_FILE := Content (JSON_giftCards (giftCards w));
                    PRICE_FILE := Content (JSON_currentPrice (currentPrice w)) |} w)
  | Written, Refused =>
      (Return tt,
       with_console_error (console_error w ++ ["Error saving data:"])
         (with_disk {| CARDS_FILE := Content (JSON_giftCards (giftCards w));
                       PRICE_FILE := PRICE_FILE (disk w) |} w))
  | Written, Truncated =>
      (Return tt,
       with_console_error (console_error w ++ ["Error saving data:"])
         (with_disk {| CARDS_FILE := Content (JSON_giftCards (giftCards w));
                       PRICE_FILE := Corrupt |} w))
  | Refused, _ =>
      (Return tt,
       with_console_error (console_error w ++ ["Error saving data:"])
         (with_disk {| CARDS_FILE := CARDS_FILE (disk w);
                       PRICE_FILE := PRICE_FILE (disk w) |} w))
  | Truncated, _ =>
      (Return tt,
       with_console_error (console_error w ++ ["Error saving data:"])
         (with_disk {| CARDS_FILE := Corrupt; PRICE_FILE := PRICE_FILE (disk w) |} w))
  end.
Proof.
  unfold saveData, write_CARDS_FILE, write_PRICE_FILE. run.
  destruct (cards_write io), (price_write io); reflexivity.
Qed.

(** [saveData] catches every error itself. *)
Lemma saveData_returns (io : IO) (w : World) : (saveData io w).1 = Return tt.
Proof.
  rewrite saveData_unfold.
  destruct (cards_write io), (price_write io); reflexivity.
Qed.

Lemma saveData_memory (io : IO) (w : World) :
  giftCards (saveData io w).2 = giftCards w
  ∧ currentPrice (saveData io w).2 = currentPrice w
  ∧ builtins (saveData io w).2 = builtins w.
Proof.
  rewrite saveData_unfold.
  destruct (cards_write io), (price_write io); auto.
Qed.

Lemma saveData_written (io : IO) (w : World) :
  cards_write io = Written → price_write io = Written →
  disk (saveData io w).2 =
  {| CARDS_FILE := Content (JSON_giftCards (giftCards w));
     PRICE_FILE := Content (JSON_currentPrice (currentPrice w)) |}.
Proof.
  intros Hc Hp. rewrite saveData_unfold, Hc, Hp. reflexivity.
Qed.

(** ** Codes that match the pattern *)

Lemma String_length_list (s : string) :
  String.length s = length (list_ascii_of_string s).
Proof. induction s as [|a s IH]; simpl; congruence. Qed.

Lemma CODE_PATTERN_length (s : string) :
  CODE_PATTERN s = true → (1 ≤ String.length s ≤ 25)%nat.
Proof.
  unfold CODE_PATTERN. rewrite String_length_list.
  rewrite !andb_true_iff, !Nat.leb_le. tauto.
Qed.

Lemma CODE_PATTERN_nonempty (s : string) : CODE_PATTERN s = true → s ≠ "".
Proof. intros H ->. discriminate H. Qed.

(** No property that [giftCards] inherits has a name made of capitals
    and digits, so for such a key only own properties are found. *)
Lemma inherited_CODE_PATTERN (b : Builtins) (s : string) :
  CODE_PATTERN s = true → inherited b s = RUndefined.
Proof.
  intros H. unfold inherited.
  repeat case_decide; subst; try discriminate H; try reflexivity.
  exfalso.
  match goal with Hin : _ ∈ prototype_functions |- _ =>
    unfold prototype_functions in Hin;
    repeat (apply elem_of_cons in Hin as [-> | Hin]; [discriminate H|]);
    by apply elem_of_nil in Hin
  end.
Qed.

Lemma lookup_giftCards_CODE_PATTERN (w : World) (s : string) :
  CODE_PATTERN s = true →
  lookup_giftCards w s = from_option RCard RUndefined (giftCards w !! s).
Proof.
  intros H. unfold lookup_giftCards.
  destruct (giftCards w !! s); [reflexivity|]. by apply inherited_CODE_PATTERN.
Qed.

(** ** [POST /api/validate] *)

Lemma validate_guard (s : string) :
  CODE_PATTERN s = true →
  negb (truthy (VStr s)) || (25 <? String.length s)%nat || negb (CODE_PATTERN s) = false.
Proof.
  intros H. pose proof (CODE_PATTERN_length s H) as [Hlo Hhi].
  assert (Ht : truthy (VStr s) = true)
    by (destruct s; [simpl in Hlo; lia | reflexivity]).
  rewrite H, Ht. cbn [negb orb]. rewrite orb_false_r.
  apply Nat.ltb_ge. lia.
Qed.

Lemma validate_new (now : string) (io : IO) (s : string) (w : World) :
  CODE_PATTERN s = true →
  giftCards w !! s = None →
  validate now io (VStr s) w =
  (Return (json (ValidateBody (RCard (pending_card s now)) (currentPrice w))),
   (saveData io (with_giftCards (<[s := pending_card s now]> (giftCards w)) w)).2).
Proof.
  intros Hp Hw. unfold validate. run.
  rewrite (validate_guard s Hp).
  rewrite (lookup_giftCards_CODE_PATTERN w s Hp), Hw. simpl.
  fold (pending_card s now).
  set (w1 := with_giftCards _ w).
  pose proof (saveData_returns io w1) as Hr.
  pose proof (saveData_memory io w1) as (Hg & Hc & _).
  destruct (saveData io w1) as [r w2]. simpl in *. subst r.
  rewrite (lookup_giftCards_CODE_PATTERN w2 s Hp), Hg, Hc.
  subst w1. simpl. by rewrite lookup_insert_eq.
Qed.

Lemma validate_existing (now : string) (io : IO) (s : string) (c : Card) (w : World) :
  CODE_PATTERN s = true →
  giftCards w !! s = Some c →
  validate now io (VStr s) w =
  (Return (json (ValidateBody (RCard c) (currentPrice w))), w).
Proof.
  intros Hp Hw. unfold validate. run.
  rewrite (validate_guard s Hp).
  rewrite (lookup_giftCards_CODE_PATTERN w s Hp), Hw. simpl.
  by rewrite (lookup_giftCards_CODE_PATTERN w s Hp), Hw.
Qed.

(** C1.  For a code that matches [^[A-Z0-9]{1,25}$] and is absent from
    the registry, [validate] adds exactly one record, with status
    ['pending'] and the current timestamp, calls [saveData] on the new
    state (so both files hold it when the writes go through), and answers
    200 with that record and the current global price.  In any state in
    which the code is registered, [validate] answers with the stored
    record and changes nothing, whatever the time and the file system. *)
Theorem validate_registers_once (now : string) (io : IO) (s : string) (w : World) :
  CODE_PATTERN s = true →
  giftCards w !! s = None →
  let first := validate now io (VStr s) w in
  first.1 = Return (json (ValidateBody (RCard (pending_card s now)) (currentPrice w)))
  ∧ giftCards first.2 = <[s := pending_card s now]> (giftCards w)
  ∧ size (giftCards first.2) = S (size (giftCards w))
  ∧ currentPrice first.2 = currentPrice w
  ∧ first.2 = (saveData io (with_giftCards (giftCards first.2) w)).2
  ∧ (cards_write io = Written → price_write io = Written →
     disk first.2 =
     {| CARDS_FILE := Content (JSON_giftCards (giftCards first.2));
        PRICE_FILE := Content (JSON_currentPrice (currentPrice w)) |})
  ∧ (∀ now' io' w' c,
       giftCards w' !! s = Some c →
       validate now' io' (VStr s) w' =
       (Return (json (ValidateBody (RCard c) (currentPrice w'))), w'))
  ∧ (∀ now' io',
       validate now' io' (VStr s) first.2 =
       (Return (json (ValidateBody (RCard (pending_card s now)) (currentPrice w))),
        first.2)).
Proof.
  intros Hp Hw first.
  assert (Hfirst : first = _) by apply (validate_new now io s w Hp Hw).
  set (w1 := with_giftCards (<[s := pending_card s now]> (giftCards w)) w) in Hfirst.
  pose proof (saveData_memory io w1) as (Hg & Hc & _).
  assert (Hg2 : giftCards first.2 = <[s := pending_card s now]> (giftCards w))
    by (rewrite Hfirst; exact Hg).
  assert (Hc2 : currentPrice first.2 = currentPrice w)
    by (rewrite Hfirst; exact Hc).
  split; [by rewrite Hfirst|].
  split; [exact Hg2|].
  split; [rewrite Hg2; by apply map_size_insert_None|].
  split; [exact Hc2|].
  split; [rewrite Hg2; by rewrite Hfirst|].
  split.
  { intros Hcw Hpw. rewrite Hg2. rewrite Hfirst. simpl.
    by rewrite (saveData_written io w1 Hcw Hpw). }
  split.
  { intros now' io' w' c Hw'. by apply validate_existing. }
  intros now' io'. rewrite <- Hc2.
  apply validate_existing; [exact Hp|]. rewrite Hg2. apply lookup_insert_eq.
Qed.

(** C2.  A code that is not a string matching [^[A-Z0-9]{1,25}$]
    (lowercase letters, symbols, the empty string, more than 25
    characters, or a value of another type) is answered with 400
    ['Invalid gift card format'], and the process state, the registry
    included, is left as it was. *)
Theorem validate_rejects_malformed (now : string) (io : IO) (code : Value) (w : World) :
  (∀ s, code = VStr s → CODE_PATTERN s = false) →
  validate now io code w = (Return InvalidFormat, w)
  ∧ statusCode InvalidFormat = 400.
Proof.
  intros H. split; [|reflexivity].
  destruct code; try reflexivity.
  unfold validate. run. rewrite (H s eq_refl). simpl.
  by rewrite orb_true_r.
Qed.

(** ** [POST /api/admin/price] *)

(** [!(amount < 0)] says [0 <= amount] for every number but [NaN]. *)
Lemma lt_zero_false (n : number) :
  n ≠ S754_nan → lt_zero n = false ↔ SFleb zero n = true.
Proof.
  intros Hn. destruct n as [[]|[]| |[] m e]; try done; by vm_compute.
Qed.

Lemma nonneg_number_lt_zero (n : number) :
  SFleb zero n = true → lt_zero n = false.
Proof.
  intros H. apply lt_zero_false; [|exact H]. by intros ->.
Qed.

Lemma truthy_VStr (c : string) : truthy (VStr c) = true ↔ c ≠ "".
Proof. destruct c; simpl; split; done. Qed.

Lemma admin_price_accepts (now : string) (io : IO) (n : number) (c : string) (w : World) :
  lt_zero n = false → c ≠ "" →
  let p := {| price_amount := Num n; price_currency := c; price_updatedAt := now |} in
  admin_price now io (VNum n) (VStr c) w =
  (Return (json (PriceUpdatedBody "Price updated successfully" (Some p))),
   (saveData io (with_currentPrice (Some p) w)).2).
Proof.
  intros Hn Hc p. unfold admin_price. run. rewrite Hn.
  apply truthy_VStr in Hc. rewrite Hc. simpl. fold p.
  pose proof (saveData_returns io (with_currentPrice (Some p) w)) as Hr.
  pose proof (saveData_memory io (with_currentPrice (Some p) w)) as (_ & Hcp & _).
  destruct (saveData io (with_currentPrice (Some p) w)) as [r w2].
  simpl in *. subst r. by rewrite Hcp.
Qed.

(** C4.  For every amount a JSON body can carry (JSON has no [NaN]):
    the price route answers 400 ['Invalid price amount'] unless the
    amount is a number that is at least zero, then 400
    ['Invalid currency'] unless the currency is a non-empty string, both
    without touching the state; otherwise it replaces [currentPrice] by
    the record made of the new amount, the new currency and the current
    timestamp, calls [saveData] on the new state, and answers 200 with
    that record. *)
Theorem admin_price_contract
    (now : string) (io : IO) (amount currency : Value) (w : World) :
  amount ≠ VNum S754_nan →
  let r := admin_price now io amount currency w in
  (¬ nonneg_number amount → r = (Return InvalidAmount, w))
  ∧ (nonneg_number amount → ¬ nonempty_string currency →
     r = (Return InvalidCurrency, w))
  ∧ (∀ n c, amount = VNum n → currency = VStr c →
       nonneg_number amount → nonempty_string currency →
       let p := {| price_amount := Num n; price_currency := c;
                   price_updatedAt := now |} in
       r.1 = Return (json (PriceUpdatedBody "Price updated successfully" (Some p)))
       ∧ currentPrice r.2 = Some p
       ∧ giftCards r.2 = giftCards w
       ∧ r.2 = (saveData io (with_currentPrice (Some p) w)).2
       ∧ (cards_write io = Written → price_write io = Written →
          PRICE_FILE (disk r.2) = Content (JSON_currentPrice (Some p))))
  ∧ statusCode InvalidAmount = 400
  ∧ statusCode InvalidCurrency = 400.
Proof.
  intros Hnan r. split; [|split; [|split; [|split; reflexivity]]].
  - intros Hneg. subst r. destruct amount as [| | |n| | |]; try reflexivity.
    unfold admin_price. run.
    destruct (lt_zero n) eqn:Hlt; [reflexivity|].
    exfalso. apply Hneg. exists n. split; [done|].
    apply lt_zero_false; [congruence|done].
  - intros (n & -> & Hn) Hcur. subst r.
    unfold admin_price. run. rewrite (nonneg_number_lt_zero n Hn).
    destruct currency as [| | | |c| |]; try reflexivity.
    destruct (truthy (VStr c)) eqn:Ht; [|reflexivity].
    exfalso. apply Hcur. exists c. split; [done|]. by apply truthy_VStr.
  - intros n c -> -> (n' & [= <-] & Hn) (c' & [= <-] & Hc) p.
    assert (Hr : r = _)
      by apply (admin_price_accepts now io n c w (nonneg_number_lt_zero n Hn) Hc).
    fold p in Hr.
    pose proof (saveData_memory io (with_currentPrice (Some p) w)) as (Hg & Hcp & _).
    rewrite Hr. simpl. repeat split; try done.
    intros Hcw Hpw. by rewrite (saveData_written io _ Hcw Hpw).
Qed.

(** ** What every reachable state satisfies *)

Section Preserves.

Context {A B : Type} (P : World → Prop).

Lemma preserves_ret (a : A) : preserves P (ret a).
Proof. intros w H. exact H. Qed.

Lemma preserves_throw (e : Exception) : preserves P (@throw A e).
Proof. intros w H. exact H. Qed.

Lemma preserves_get (f : World → A) : preserves P (get f).
Proof. intros w H. exact H. Qed.

Lemma preserves_modify (f : World → World) :
  (∀ w, P w → P (f w)) → preserves P (modify f).
Proof. intros Hf w H. by apply Hf. Qed.

Lemma preserves_bind (m : M A) (k : A → M B) :
  preserves P m → (∀ a, preserves P (k a)) → preserves P (m ≫= k).
Proof.
  intros Hm Hk w H. run. specialize (Hm w H).
  destruct (m w) as [[a|e] w1]; simpl in *; [by apply Hk | done].
Qed.

Lemma preserves_try_catch (m : M A) (h : Exception → M A) :
  preserves P m → (∀ e, preserves P (h e)) → preserves P (try_catch m h).
Proof.
  intros Hm Hh w H. run. specialize (Hm w H).
  destruct (m w) as [[a|e] w1]; simpl in *; [done | by apply Hh].
Qed.

End Preserves.

Lemma cards_ok_JSON (g : gmap string Card) : cards_ok g → cards_ok (JSON_giftCards g).
Proof.
  unfold cards_ok, JSON_giftCards. intros H.
  apply map_Forall_fmap. eapply map_Forall_impl; [exact H|].
  intros k c Hc. exact Hc.
Qed.

Lemma cards_ok_insert (g : gmap string Card) (k : string) (c : Card) :
  cards_ok g → card_ok k c → cards_ok (<[k := c]> g).
Proof. intros Hg Hc. by apply map_Forall_insert_2. Qed.

Lemma consistent_console_error (line : string) :
  preserves consistent (console_error_log line).
Proof. intros w H. exact H. Qed.

Lemma consistent_saveData (io : IO) : preserves consistent (saveData io).
Proof.
  intros w [Hg Hf]. rewrite saveData_unfold.
  destruct (cards_write io), (price_write io);
    split; simpl; auto using cards_ok_JSON.
Qed.

Lemma consistent_loadData : preserves consistent loadData.
Proof.
  intros w [Hg Hf]. unfold loadData, read_and_parse. run.
  destruct w as [g p b [cf pf] l]. simpl in *.
  destruct cf as [| |g']; destruct pf as [| |p']; simpl;
    split; simpl; auto; apply map_Forall_empty.
Qed.

Lemma consistent_startServer (d : Disk) :
  file_ok (CARDS_FILE d) → consistent (startServer d).
Proof.
  intros H. apply consistent_loadData. split; [apply map_Forall_empty | exact H].
Qed.

Lemma inherited_not_card (b : Builtins) (key : string) (c : Card) :
  inherited b key ≠ RCard c.
Proof.
  unfold inherited. repeat case_decide; try done.
  - by destruct (added_status (prototype b)).
  - by destruct (added_updatedAt (prototype b)).
  - by destruct (added_price (prototype b)).
Qed.

Lemma consistent_assign (key : string) (a : Assignment) :
  assignment_ok a → preserves consistent (assign key a).
Proof.
  intros Ha w [Hg Hf]. unfold assign, lookup_giftCards. run.
  destruct (giftCards w !! key) as [c|] eqn:Hk.
  - split; [|exact Hf]. simpl. apply cards_ok_insert; [exact Hg|].
    destruct (Hg key c Hk) as (Hc & Hp & Hs).
    destruct a; repeat split; simpl; auto.
  - pose proof (inherited_not_card (builtins w) key) as Hn.
    destruct (inherited (builtins w) key); split; auto.
    by destruct (Hn c).
Qed.

Lemma includes_Some (l : list string) (v : Value) (s : string) :
  includes l v = Some s ↔ v = VStr s ∧ s ∈ l.
Proof.
  unfold includes. destruct v; try (split; [done | by intros [? _]]).
  case_decide; split.
  - by intros [= <-].
  - by intros [[= <-] _].
  - done.
  - intros [[= <-] ?]. done.
Qed.

Ltac pres :=
  repeat match goal with
    | |- preserves _ (_ ≫= _) => apply preserves_bind; [|intros ?]
    | |- preserves _ (ret _) => apply preserves_ret
    | |- preserves _ (throw _) => apply preserves_throw
    | |- preserves _ (get _) => apply preserves_get
    | |- preserves _ (try_catch _ _) => apply preserves_try_catch; [|intros ?]
    | |- preserves consistent (console_error_log _) => apply consistent_console_error
    | |- preserves consistent (saveData _) => apply consistent_saveData
    | |- preserves consistent (assign _ _) => apply consistent_assign
    | |- preserves _ (if ?b then _ else _) => destruct b eqn:?
    | |- preserves _ (match ?x with _ => _ end) => destruct x eqn:?
    end.

Lemma consistent_validate (now : string) (io : IO) (code : Value) :
  preserves consistent (validate now io code).
Proof.
  unfold validate. pres.
  apply preserves_modify. intros w [Hg Hf]. split; [|exact Hf]. simpl.
  apply cards_ok_insert; [exact Hg|]. repeat split; simpl.
  - match goal with H : _ || _ || negb (CODE_PATTERN _) = false |- _ =>
      apply orb_false_iff in H as [_ H]; by apply negb_false_iff in H
    end.
  - unfold STATUSES. set_solver.
Qed.

Lemma consistent_admin_price (now : string) (io : IO) (amount currency : Value) :
  preserves consistent (admin_price now io amount currency).
Proof.
  unfold admin_price. pres.
  apply preserves_modify. intros w H. exact H.
Qed.

Lemma consistent_admin_cards_status (now : string) (io : IO) (code status : Value) :
  preserves consistent (admin_cards_status now io code status).
Proof.
  unfold admin_cards_status, not_found, giftCards_at, assign_at, ToPropertyKey.
  pres; try exact I.
  all: match goal with H : includes _ _ = Some _ |- _ =>
         apply includes_Some in H as [_ H]; exact H
       end.
Qed.

Lemma consistent_admin_cards_price (now : string) (io : IO) (code amount : Value) :
  preserves consistent (admin_cards_price now io code amount).
Proof.
  unfold admin_cards_price, not_found, giftCards_at, assign_at, ToPropertyKey.
  pres; exact I.
Qed.

Lemma consistent_app (now : string) (io : IO) (req : Request) :
  preserves consistent (app now io req).
Proof.
  destruct req; unfold app, authenticate, get_price, admin_cards, admin_stats; pres;
    auto using consistent_validate, consistent_admin_price,
      consistent_admin_cards_status, consistent_admin_cards_price.
Qed.

Lemma reachable_consistent (w : World) : reachable w → consistent w.
Proof.
  induction 1 as [|w now io req _ IH|w io _ IH|w _ IH].
  - by apply consistent_startServer.
  - by apply consistent_app.
  - by apply consistent_saveData.
  - apply consistent_startServer. apply IH.
Qed.

(** ** [POST /api/admin/stats] *)

Lemma count_status_partition (cards : list Card) :
  Forall (λ c, status c ∈ STATUSES) cards →
  length cards =
  (count_status "accepted" cards + count_status "declined" cards
   + count_status "pending" cards)%nat.
Proof.
  unfold count_status. induction 1 as [|c cards Hc _ IH]; [reflexivity|].
  rewrite !filter_cons. simpl length at 1. rewrite IH.
  unfold STATUSES in Hc.
  apply elem_of_cons in Hc as [-> | Hc];
    [|apply elem_of_cons in Hc as [-> | Hc];
      [|apply elem_of_cons in Hc as [-> | Hc]; [|by apply elem_of_nil in Hc]]];
    repeat case_decide; try done; simpl; lia.
Qed.

Lemma Object_values_ok (g : gmap string Card) :
  cards_ok g → Forall (λ c, status c ∈ STATUSES) (Object_values g).
Proof.
  intros Hg. unfold Object_values. apply Forall_forall. intros c Hc.
  apply list_elem_of_fmap in Hc as ([k c'] & -> & Hkc).
  apply elem_of_map_to_list in Hkc. by destruct (Hg k c' Hkc) as (_ & _ & ?).
Qed.

(** C3.  In every state the server can reach, the stats route answers
    200 with four counts, changes nothing, and the counts satisfy
    [total = accepted + declined + pending]; [total] is the number of
    records and each of the other three counts the records whose status
    is exactly that string. *)
Theorem stats_total_is_sum (w : World) :
  reachable w →
  ∃ stats : Stats,
    admin_stats w = (Return (json (StatsBody stats)), w)
    ∧ total stats = (accepted stats + declined stats + pending stats)%nat
    ∧ total stats = size (giftCards w)
    ∧ accepted stats = count_status "accepted" (Object_values (giftCards w))
    ∧ declined stats = count_status "declined" (Object_values (giftCards w))
    ∧ pending stats = count_status "pending" (Object_values (giftCards w)).
Proof.
  intros Hw. apply reachable_consistent in Hw as [Hg _].
  eexists. split; [reflexivity|]. simpl. repeat split.
  - by apply count_status_partition, Object_values_ok.
  - unfold Object_values. by rewrite length_fmap, length_map_to_list.
Qed.

(** ** The admin routes on a registered code *)

Arguments saveData : simpl never.
Arguments assign : simpl never.
Arguments lookup_giftCards : simpl never.

Lemma with_giftCards_twice (g g' : gmap string Card) (w : World) :
  with_giftCards g (with_giftCards g' w) = with_giftCards g w.
Proof. reflexivity. Qed.

Lemma assign_registered (k : string) (a : Assignment) (c : Card) (w : World) :
  giftCards w !! k = Some c →
  assign k a w =
  (Return tt, with_giftCards (<[k := assign_Card a c]> (giftCards w)) w).
Proof. intros Hk. unfold assign, lookup_giftCards. run. by rewrite Hk. Qed.

Lemma cards_ok_key_truthy (g : gmap string Card) (k : string) (c : Card) :
  cards_ok g → g !! k = Some c → truthy (VStr k) = true.
Proof.
  intros Hg Hk. destruct (Hg k c Hk) as (_ & Hp & _).
  by apply truthy_VStr, CODE_PATTERN_nonempty.
Qed.

Lemma lookup_registered (k : string) (c : Card) (w : World) :
  giftCards w !! k = Some c → lookup_giftCards w k = RCard c.
Proof. intros Hk. unfold lookup_giftCards. by rewrite Hk. Qed.

Lemma admin_cards_status_registered
    (now : string) (io : IO) (k s : string) (c : Card) (w : World) :
  truthy (VStr k) = true →
  giftCards w !! k = Some c →
  s ∈ STATUSES →
  admin_cards_status now io (VStr k) (VStr s) w =
  (Return (json (CardBody "Status updated successfully" (RCard (with_status s now c)))),
   (saveData io (with_giftCards (<[k := with_status s now c]> (giftCards w)) w)).2).
Proof.
  intros Ht Hk Hs.
  unfold admin_cards_status, not_found, giftCards_at, assign_at, ToPropertyKey.
  cbn [ToString]. rewrite Ht.
  assert (Hi : includes STATUSES (VStr s) = Some s) by by apply includes_Some.
  rewrite Hi. run. simpl. rewrite (lookup_registered k c w Hk). simpl.
  rewrite (assign_registered k _ c w Hk).
  rewrite (assign_registered k _ (assign_Card (SetStatus s) c));
    [|apply lookup_insert_eq].
  simpl. rewrite insert_insert_eq, with_giftCards_twice.
  fold (with_status s now c).
  set (w1 := with_giftCards _ w).
  pose proof (saveData_returns io w1) as Hr.
  pose proof (saveData_memory io w1) as (Hg & _ & _).
  destruct (saveData io w1) as [r w2]. simpl in *. subst r. simpl.
  unfold lookup_giftCards. rewrite Hg. subst w1. simpl.
  by rewrite lookup_insert_eq.
Qed.

Lemma admin_cards_status_invalid
    (now : string) (io : IO) (k : string) (c : Card) (status : Value) (w : World) :
  truthy (VStr k) = true →
  giftCards w !! k = Some c →
  includes STATUSES status = None →
  admin_cards_status now io (VStr k) status w = (Return InvalidStatus, w).
Proof.
  intros Ht Hk Hi.
  unfold admin_cards_status, not_found, giftCards_at, assign_at, ToPropertyKey.
  cbn [ToString]. rewrite Ht, Hi. run. simpl.
  by rewrite (lookup_registered k c w Hk).
Qed.

(** C5.  For a code registered in a reachable state: a status other
    than ['pending'], ['accepted'] and ['declined'] (a different string or
    a value of another type) is answered with 400 ['Invalid status'] and
    the state, registry included, stays as it was; one of the three
    replaces the status and the [updatedAt] of that record and of no
    other, [saveData] is called on the new state, and the answer is 200
    with the new record. *)
Theorem status_route_on_registered
    (now : string) (io : IO) (k : string) (c : Card) (status : Value) (w : World) :
  reachable w →
  giftCards w !! k = Some c →
  let r := admin_cards_status now io (VStr k) status w in
  ((∀ s, status = VStr s → s ∉ STATUSES) → r = (Return InvalidStatus, w))
  ∧ (∀ s, status = VStr s → s ∈ STATUSES →
       r.1 = Return (json (CardBody "Status updated successfully"
                             (RCard (with_status s now c))))
       ∧ giftCards r.2 = <[k := with_status s now c]> (giftCards w)
       ∧ currentPrice r.2 = currentPrice w
       ∧ r.2 = (saveData io (with_giftCards (giftCards r.2) w)).2
       ∧ (cards_write io = Written → price_write io = Written →
          CARDS_FILE (disk r.2) = Content (JSON_giftCards (giftCards r.2))))
  ∧ statusCode InvalidStatus = 400.
Proof.
  intros Hw Hk r. apply reachable_consistent in Hw as [Hg _].
  pose proof (cards_ok_key_truthy _ k c Hg Hk) as Ht.
  split; [|split; [|reflexivity]].
  - intros Hs. apply (admin_cards_status_invalid now io k c status w Ht Hk).
    destruct (includes STATUSES status) as [s|] eqn:Hi; [|reflexivity].
    apply includes_Some in Hi as [-> Hin]. by destruct (Hs s eq_refl).
  - intros s -> Hs.
    assert (Hr : r = _) by apply (admin_cards_status_registered now io k s c w Ht Hk Hs).
    set (w1 := with_giftCards _ w) in Hr.
    pose proof (saveData_memory io w1) as (Hg1 & Hc1 & _).
    assert (Hg2 : giftCards r.2 = <[k := with_status s now c]> (giftCards w))
      by (rewrite Hr; exact Hg1).
    split; [by rewrite Hr|]. split; [exact Hg2|].
    split; [rewrite Hr; exact Hc1|].
    split; [rewrite Hg2; by rewrite Hr|].
    intros Hcw Hpw. rewrite Hg2. rewrite Hr. simpl.
    by rewrite (saveData_written io w1 Hcw Hpw).
Qed.

Lemma admin_cards_price_registered
    (now : string) (io : IO) (k : string) (n : number) (c : Card) (w : World) :
  truthy (VStr k) = true →
  giftCards w !! k = Some c →
  lt_zero n = false →
  let p := {| amount := Num n;
              currency := match currentPrice w with
                          | Some g => price_currency g
                          | None => "USD"
                          end |} in
  admin_cards_price now io (VStr k) (VNum n) w =
  (Return (json (CardBody "Price updated successfully" (RCard (with_price p now c)))),
   (saveData io (with_giftCards (<[k := with_price p now c]> (giftCards w)) w)).2).
Proof.
  intros Ht Hk Hn p.
  unfold admin_cards_price, not_found, giftCards_at, assign_at, ToPropertyKey.
  cbn [ToString]. rewrite Ht, Hn. run. simpl.
  rewrite (lookup_registered k c w Hk). simpl.
  rewrite (assign_registered k _ c w Hk).
  rewrite (assign_registered k _ (assign_Card (SetPrice p) c));
    [|apply lookup_insert_eq].
  simpl. rewrite insert_insert_eq, with_giftCards_twice.
  fold (with_price p now c).
  set (w1 := with_giftCards _ w).
  pose proof (saveData_returns io w1) as Hr.
  pose proof (saveData_memory io w1) as (Hg & _ & _).
  destruct (saveData io w1) as [r w2]. simpl in *. subst r. simpl.
  unfold lookup_giftCards. rewrite Hg. subst w1. simpl.
  by rewrite lookup_insert_eq.
Qed.

Lemma admin_price_giftCards
    (now : string) (io : IO) (amount currency : Value) (w : World) :
  giftCards (admin_price now io amount currency w).2 = giftCards w.
Proof.
  unfold admin_price. run.
  destruct amount as [| | |n| | |]; try reflexivity.
  destruct (lt_zero n); [reflexivity|].
  destruct currency as [| | | |c| |]; try reflexivity.
  destruct (truthy (VStr c)); [|reflexivity]. simpl.
  set (w1 := with_currentPrice _ w).
  pose proof (saveData_returns io w1) as Hr.
  pose proof (saveData_memory io w1) as (Hg & _ & _).
  destruct (saveData io w1) as [r w2]. simpl in *. by subst r.
Qed.

(** C7.  For a code registered in a reachable state and a number that
    is at least zero, the card price route stores [{ amount, currency }]
    under the card's [price], the currency being that of [currentPrice]
    when one is set and ['USD'] otherwise, sets the card's [updatedAt],
    calls [saveData] on the new state and answers 200 with the new
    record.  A later update of the global price, in whatever state it
    happens, leaves every card as it is, the stored currency included. *)
Theorem card_price_route_on_registered
    (now : string) (io : IO) (k : string) (c : Card) (n : number) (w : World) :
  reachable w →
  giftCards w !! k = Some c →
  SFleb zero n = true →
  let p := {| amount := Num n;
              currency := match currentPrice w with
                          | Some g => price_currency g
                          | None => "USD"
                          end |} in
  let r := admin_cards_price now io (VStr k) (VNum n) w in
  r.1 = Return (json (CardBody "Price updated successfully" (RCard (with_price p now c))))
  ∧ giftCards r.2 = <[k := with_price p now c]> (giftCards w)
  ∧ currentPrice r.2 = currentPrice w
  ∧ r.2 = (saveData io (with_giftCards (giftCards r.2) w)).2
  ∧ (cards_write io = Written → price_write io = Written →
     CARDS_FILE (disk r.2) = Content (JSON_giftCards (giftCards r.2)))
  ∧ (∀ now' io' amount' currency' w',
       giftCards (admin_price now' io' amount' currency' w').2 = giftCards w').
Proof.
  intros Hw Hk Hn p r. apply reachable_consistent in Hw as [Hg _].
  pose proof (cards_ok_key_truthy _ k c Hg Hk) as Ht.
  assert (Hr : r = _)
    by apply (admin_cards_price_registered now io k n c w Ht Hk
                (nonneg_number_lt_zero n Hn)).
  fold p in Hr. set (w1 := with_giftCards _ w) in Hr.
  pose proof (saveData_memory io w1) as (Hg1 & Hc1 & _).
  assert (Hg2 : giftCards r.2 = <[k := with_price p now c]> (giftCards w))
    by (rewrite Hr; exact Hg1).
  split; [by rewrite Hr|]. split; [exact Hg2|].
  split; [rewrite Hr; exact Hc1|].
  split; [rewrite Hg2; by rewrite Hr|].
  split.
  - intros Hcw Hpw. rewrite Hg2. rewrite Hr. simpl.
    by rewrite (saveData_written io w1 Hcw Hpw).
  - intros. apply admin_price_giftCards.
Qed.

(** ** The admin routes on a code that is not registered *)

(** [!code || !giftCards[code]] on a code that is falsy or whose lookup
    is. *)
Lemma not_found_true (code : Value) (w : World) :
  truthy code = false
  ∨ (∃ key, ToString code = Some key ∧ truthy_ref (lookup_giftCards w key) = false) →
  not_found code w = (Return true, w).
Proof.
  unfold not_found, giftCards_at, ToPropertyKey.
  intros [Hf | (key & Hkey & Hr)].
  - by rewrite Hf.
  - destruct (truthy code); [|reflexivity]. rewrite Hkey. run. simpl.
    by rewrite Hr.
Qed.

(** When the submitted code is falsy, or [giftCards[code]] is, both
    routes answer 404 ['Gift card not found'] before looking at the status
    or the amount, and the state is left as it was. *)
Theorem unknown_code_not_found
    (now : string) (io : IO) (code status amount : Value) (w : World) :
  truthy code = false
  ∨ (∃ key, ToString code = Some key ∧ truthy_ref (lookup_giftCards w key) = false) →
  admin_cards_status now io code status w = (Return NotFound, w)
  ∧ admin_cards_price now io code amount w = (Return NotFound, w)
  ∧ statusCode NotFound = 404.
Proof.
  intros H. apply not_found_true in H.
  unfold admin_cards_status, admin_cards_price. run. by rewrite H.
Qed.

(** C6.  The claim fails on a code that names a property [giftCards]
    inherits from [Object.prototype].  On a freshly started server, with
    an empty registry, ['toString'] is not registered, yet both routes
    answer 200 and write to the function they found; the registry and
    the global price stay as they were. *)
Theorem inherited_name_is_not_rejected (now : string) (io : IO) :
  let w := startServer empty_disk in
  let r1 := admin_cards_status now io (VStr "toString") (VStr "accepted") w in
  let r2 := admin_cards_price now io (VStr "toString") (VNum one) w in
  giftCards w = ∅
  ∧ r1.1 = Return (json (CardBody "Status updated successfully" (RFunction "toString")))
  ∧ r2.1 = Return (json (CardBody "Price updated successfully" (RFunction "toString")))
  ∧ functions (builtins r1.2) !! "toString"
    = Some {| added_status := Some "accepted"; added_updatedAt := Some now;
              added_price := None |}
  ∧ functions (builtins r2.2) !! "toString"
    = Some {| added_status := None; added_updatedAt := Some now;
              added_price := Some {| amount := Num one; currency := "USD" |} |}
  ∧ giftCards r1.2 = ∅ ∧ currentPrice r1.2 = None
  ∧ giftCards r2.2 = ∅ ∧ currentPrice r2.2 = None.
Proof.
  destruct io as [[] []]; vm_compute; repeat split; reflexivity.
Qed.

(** C10.  The order of the two checks is as claimed, but the existence
    check lets an inherited name through, so a 400 is also given for a
    code that is not registered: on a freshly started server ['toString']
    with a bad status, or with a negative amount, is answered 400 and not
    404. *)
Theorem inherited_name_reaches_validation (now : string) (io : IO) :
  let w := startServer empty_disk in
  giftCards w = ∅
  ∧ admin_cards_status now io (VStr "toString") (VStr "expired") w
    = (Return InvalidStatus, w)
  ∧ admin_cards_price now io (VStr "toString") (VNum minus_one) w
    = (Return InvalidAmount, w)
  ∧ statusCode InvalidStatus = 400
  ∧ statusCode InvalidAmount = 400.
Proof. repeat split; reflexivity. Qed.

(** ** Exceptions and failed writes *)

Lemma answers_try_catch {A} (body : M A) (line : string) (a : A) :
  answers (try_catch body (λ error, console_error_log line;; ret a)).
Proof.
  intros w. run. destruct (body w) as [[b|e] w1]; simpl; eauto.
Qed.

Lemma answers_app (now : string) (io : IO) (req : Request) :
  answers (app now io req).
Proof.
  destruct req; unfold app, authenticate;
    repeat match goal with
      | |- answers (if ?b then _ else _) => destruct b
      end;
    try apply answers_try_catch; intros w; eexists; reflexivity.
Qed.

Section Agrees.

Context {A B : Type}.

Lemma agrees_ret (a : A) : agrees (ret a) (ret a).
Proof. intros w w' H. split; [reflexivity | exact H]. Qed.

Lemma agrees_throw (e : Exception) : agrees (@throw A e) (throw e).
Proof. intros w w' H. split; [reflexivity | exact H]. Qed.

Lemma agrees_get (f : World → A) :
  (∀ w w', same_memory w w' → f w = f w') → agrees (get f) (get f).
Proof. intros Hf w w' H. split; [simpl; f_equal; by apply Hf | exact H]. Qed.

Lemma agrees_modify (f : World → World) :
  (∀ w w', same_memory w w' → same_memory (f w) (f w')) →
  agrees (modify f) (modify f).
Proof. intros Hf w w' H. split; [reflexivity | by apply Hf]. Qed.

Lemma agrees_bind (m m' : M A) (k k' : A → M B) :
  agrees m m' → (∀ a, agrees (k a) (k' a)) → agrees (m ≫= k) (m' ≫= k').
Proof.
  intros Hm Hk w w' H. run. destruct (Hm w w' H) as [Hr Hw].
  destruct (m w) as [[a|e] w1], (m' w') as [[a'|e'] w1'];
    simpl in *; try discriminate; simplify_eq; [by apply Hk | done].
Qed.

Lemma agrees_try_catch (m m' : M A) (h h' : Exception → M A) :
  agrees m m' → (∀ e, agrees (h e) (h' e)) →
  agrees (try_catch m h) (try_catch m' h').
Proof.
  intros Hm Hh w w' H. run. destruct (Hm w w' H) as [Hr Hw].
  destruct (m w) as [[a|e] w1], (m' w') as [[a'|e'] w1'];
    simpl in *; try discriminate; simplify_eq; [done | by apply Hh].
Qed.

End Agrees.

Lemma agrees_console_error_log (line : string) :
  agrees (console_error_log line) (console_error_log line).
Proof. intros w w' H. split; [reflexivity | exact H]. Qed.

(** The outcome of the writes shows neither in what [saveData] returns
    nor in the memory. *)
Lemma agrees_saveData (io io' : IO) : agrees (saveData io) (saveData io').
Proof.
  intros w w' H. rewrite !saveData_unfold.
  destruct (cards_write io), (price_write io),
    (cards_write io'), (price_write io'); split; try reflexivity; exact H.
Qed.

Lemma same_memory_lookup (w w' : World) (key : string) :
  same_memory w w' → lookup_giftCards w key = lookup_giftCards w' key.
Proof. intros (Hg & _ & Hb). unfold lookup_giftCards. by rewrite Hg, Hb. Qed.

Lemma agrees_assign (key : string) (a : Assignment) :
  agrees (assign key a) (assign key a).
Proof.
  unfold assign. apply agrees_bind.
  - apply agrees_get. intros w w' H. by apply same_memory_lookup.
  - intros r. destruct r; try apply agrees_ret; try apply agrees_throw;
      apply agrees_modify; intros w w' (Hg & Hc & Hb);
      unfold same_memory; simpl; by rewrite ?Hg, ?Hc, ?Hb.
Qed.

Ltac agr :=
  repeat match goal with
    | |- agrees (_ ≫= _) (_ ≫= _) => apply agrees_bind; [|intros ?]
    | |- agrees (ret _) _ => apply agrees_ret
    | |- agrees (throw _) _ => apply agrees_throw
    | |- agrees (try_catch _ _) _ => apply agrees_try_catch; [|intros ?]
    | |- agrees (console_error_log _) _ => apply agrees_console_error_log
    | |- agrees (saveData _) _ => apply agrees_saveData
    | |- agrees (assign _ _) _ => apply agrees_assign
    | |- agrees (get giftCards) _ => apply agrees_get; by intros ? ? (? & ? & ?)
    | |- agrees (get currentPrice) _ => apply agrees_get; by intros ? ? (? & ? & ?)
    | |- agrees (get (λ w, lookup_giftCards w _)) _ =>
        apply agrees_get; intros ? ? ?; by apply same_memory_lookup
    | |- agrees (if ?b then _ else _) _ => destruct b
    | |- agrees (match ?x with _ => _ end) _ => destruct x
    end.

Lemma agrees_app (now : string) (io io' : IO) (req : Request) :
  agrees (app now io req) (app now io' req).
Proof.
  destruct req;
    unfold app, authenticate, get_price, admin_price, validate, admin_cards,
      admin_cards_status, admin_cards_price, admin_stats,
      not_found, giftCards_at, assign_at, ToPropertyKey;
    agr;
    apply agrees_modify; intros w w' (Hg & Hc & Hb);
    unfold same_memory; simpl; by rewrite ?Hg, ?Hc, ?Hb.
Qed.

Lemma handler_exception_status (now : string) (io : IO) (code status : Value) (w : World) :
  truthy code = true → ToString code = None →
  admin_cards_status now io code status w =
  (Return InternalError,
   with_console_error (console_error w ++ ["Error updating card status:"]) w).
Proof.
  intros Ht Hs. unfold admin_cards_status, not_found, giftCards_at, ToPropertyKey.
  by rewrite Ht, Hs.
Qed.

Lemma handler_exception_price (now : string) (io : IO) (code amount : Value) (w : World) :
  truthy code = true → ToString code = None →
  admin_cards_price now io code amount w =
  (Return InternalError,
   with_console_error (console_error w ++ ["Error updating card price:"]) w).
Proof.
  intros Ht Hs. unfold admin_cards_price, not_found, giftCards_at, ToPropertyKey.
  by rewrite Ht, Hs.
Qed.

(** C8, as the code has it.  Every request is answered.  An exception
    thrown while a handler runs (indexing [giftCards] with a value that
    cannot be converted to a property key) is caught by the handler,
    logged, and answered with 500 and the fixed message
    ['Internal server error'].  A failed write is not such an exception:
    [saveData] catches and logs it and returns normally, so the answer and
    the memory are the same whether the writes succeed or fail. *)
Theorem exceptions_and_failed_writes
    (now : string) (io io' : IO) (req : Request) (w : World) :
  (∃ response, (app now io req w).1 = Return response)
  ∧ (app now io req w).1 = (app now io' req w).1
  ∧ same_memory (app now io req w).2 (app now io' req w).2
  ∧ (saveData io w).1 = Return tt
  ∧ (cards_write io ≠ Written ∨ price_write io ≠ Written →
     console_error (saveData io w).2
     = (console_error w ++ ["Error saving data:"])%list)
  ∧ (∀ code v, truthy code = true → ToString code = None →
       admin_cards_status now io code v w =
       (Return InternalError,
        with_console_error (console_error w ++ ["Error updating card status:"]) w)
       ∧ admin_cards_price now io code v w =
         (Return InternalError,
          with_console_error (console_error w ++ ["Error updating card price:"]) w))
  ∧ InternalError = {| statusCode := 500; body := Message false "Internal server error" |}.
Proof.
  split; [apply answers_app|].
  split; [by apply agrees_app|].
  split; [by apply agrees_app|].
  split; [apply saveData_returns|].
  split.
  { rewrite saveData_unfold.
    destruct (cards_write io), (price_write io); intros [?|?]; done. }
  split; [|reflexivity].
  intros code v Ht Hs.
  split; [by apply handler_exception_status | by apply handler_exception_price].
Qed.

(** ** The registry and the access guard *)

(** In every reachable state a record is stored under its own code, the
    code matches [^[A-Z0-9]{1,25}$], and the status is ['pending'],
    ['accepted'] or ['declined']. *)
Theorem registry_invariant (w : World) (k : string) (c : Card) :
  reachable w →
  giftCards w !! k = Some c →
  code c = k ∧ CODE_PATTERN k = true ∧ status c ∈ STATUSES.
Proof.
  intros Hw Hk. apply reachable_consistent in Hw as [Hg _]. exact (Hg k c Hk).
Qed.

Lemma strict_equals_spec (v : Value) (s : string) :
  strict_equals v s = true ↔ v = VStr s.
Proof.
  destruct v; simpl; try (split; [done | by intros [=]]).
  rewrite String.eqb_eq. split; [by intros -> | by intros [= ->]].
Qed.

(** Every admin route compares the submitted user name and password
    with the configured ones, exactly; on a mismatch the answer is 401
    and the handler does not run. *)
Theorem admin_routes_need_credentials
    (now : string) (io : IO) (u p a b : Value) (w : World) :
  ¬ (u = VStr ADMIN_USERNAME ∧ p = VStr ADMIN_PASSWORD) →
  app now io (POST_admin_login u p) w = (Return Unauthorized, w)
  ∧ app now io (POST_admin_price u p a b) w = (Return Unauthorized, w)
  ∧ app now io (POST_admin_cards u p) w = (Return Unauthorized, w)
  ∧ app now io (POST_admin_cards_status u p a b) w = (Return Unauthorized, w)
  ∧ app now io (POST_admin_cards_price u p a b) w = (Return Unauthorized, w)
  ∧ app now io (POST_admin_stats u p) w = (Return Unauthorized, w)
  ∧ statusCode Unauthorized = 401.
Proof.
  intros H.
  assert (Hno : strict_equals u ADMIN_USERNAME && strict_equals p ADMIN_PASSWORD = false).
  { apply not_true_is_false. rewrite andb_true_iff, !strict_equals_spec. exact H. }
  unfold app, authenticate. rewrite Hno. repeat split.
Qed.

(** ** Restart: [saveData] followed by [loadData] *)

Lemma JSON_Amount_restorable (a : Amount) : JSON_Amount a = a ↔ restorable a.
Proof.
  destruct a as [n|]; [|done]. unfold JSON_Amount, JSON_number, restorable.
  destruct n as [[]| | |]; simpl; split; try done; by intros [? ?].
Qed.

Lemma JSON_Card_restorable (c : Card) :
  JSON_Card c = c ↔ (∀ p, price c = Some p → restorable (amount p)).
Proof.
  destruct c as [k s t u [[a cur]|]]; unfold JSON_Card, JSON_CardPrice; simpl.
  - split.
    + intros [= Ha] ? [= <-]. by apply JSON_Amount_restorable.
    + intros H. by rewrite (proj2 (JSON_Amount_restorable a) (H _ eq_refl)).
  - split; done.
Qed.

Lemma JSON_giftCards_restorable (g : gmap string Card) :
  JSON_giftCards g = g
  ↔ (∀ k c p, g !! k = Some c → price c = Some p → restorable (amount p)).
Proof.
  unfold JSON_giftCards. split.
  - intros Hg k c p Hk. apply JSON_Card_restorable.
    assert (H : (JSON_Card <$> g) !! k = Some c) by by rewrite Hg.
    rewrite lookup_fmap, Hk in H. by injection H.
  - intros H. apply map_eq. intros k. rewrite lookup_fmap.
    destruct (g !! k) as [c|] eqn:Hk; [|reflexivity]. simpl.
    f_equal. apply JSON_Card_restorable. intros p. by apply (H k).
Qed.

Lemma JSON_currentPrice_restorable (p : option PriceRecord) :
  JSON_currentPrice p = p ↔ (∀ r, p = Some r → restorable (price_amount r)).
Proof.
  destruct p as [[a c t]|]; unfold JSON_currentPrice, JSON_PriceRecord; simpl.
  - split.
    + intros [= Ha] ? [= <-]. by apply JSON_Amount_restorable.
    + intros H. by rewrite (proj2 (JSON_Amount_restorable a) (H _ eq_refl)).
  - split; done.
Qed.

Lemma startServer_Content (g : gmap string Card) (p : option PriceRecord) :
  giftCards (startServer {| CARDS_FILE := Content g; PRICE_FILE := Content p |}) = g
  ∧ currentPrice (startServer {| CARDS_FILE := Content g; PRICE_FILE := Content p |}) = p.
Proof. split; reflexivity. Qed.

(** C9, as the code has it.  After a flush whose two writes succeed, a
    start-up load yields the card map and the price record that JSON
    makes of the ones in memory: every amount that is not finite has
    become [null] and [-0] has become [0], everything else is as it was.
    So the state is restored exactly when its amounts are finite and not
    [-0] (or [null] already). *)
Theorem flush_then_load (w : World) :
  let w' := startServer (disk (saveData io_ok w).2) in
  giftCards w' = JSON_giftCards (giftCards w)
  ∧ currentPrice w' = JSON_currentPrice (currentPrice w)
  ∧ (giftCards w' = giftCards w ∧ currentPrice w' = currentPrice w
     ↔ restorable_memory w).
Proof.
  intros w'. subst w'.
  rewrite (saveData_written io_ok w eq_refl eq_refl).
  destruct (startServer_Content (JSON_giftCards (giftCards w))
              (JSON_currentPrice (currentPrice w))) as [Hg Hp].
  rewrite Hg, Hp. split; [reflexivity|]. split; [reflexivity|].
  unfold restorable_memory.
  by rewrite JSON_giftCards_restorable, JSON_currentPrice_restorable.
Qed.

(** A missing file means no data yet; a file that cannot be read or
    parsed is logged and treated the same way.  The files are not
    touched by the load. *)
Theorem loadData_tolerates_bad_files (d : Disk) :
  giftCards (startServer d)
  = match CARDS_FILE d with Content g => g | _ => ∅ end
  ∧ currentPrice (startServer d)
    = match PRICE_FILE d with Content p => p | _ => None end
  ∧ console_error (startServer d)
    = (match CARDS_FILE d with Corrupt => ["Error loading gift cards:"] | _ => [] end
       ++ match PRICE_FILE d with Corrupt => ["Error loading price data:"] | _ => [] end)%list
  ∧ disk (startServer d) = d.
Proof.
  destruct d as [[| |g] [| |p]]; repeat split.
Qed.

(** ** What a request leaves alone *)

(** [pres], for a property that the three state-changing primitives
    keep by the lemmas given. *)
Ltac pres_by log_lemma save_lemma assign_lemma :=
  repeat match goal with
    | |- preserves _ (_ ≫= _) => apply preserves_bind; [|intros ?]
    | |- preserves _ (ret _) => apply preserves_ret
    | |- preserves _ (throw _) => apply preserves_throw
    | |- preserves _ (get _) => apply preserves_get
    | |- preserves _ (try_catch _ _) => apply preserves_try_catch; [|intros ?]
    | |- preserves _ (console_error_log _) => apply log_lemma
    | |- preserves _ (saveData _) => apply save_lemma
    | |- preserves _ (assign _ _) => apply assign_lemma
    | |- preserves _ (if ?b then _ else _) => destruct b eqn:?
    | |- preserves _ (match ?x with _ => _ end) => destruct x eqn:?
    end.

Section Price_frame.
Variable p0 : option PriceRecord.

Let same_price (w : World) : Prop := currentPrice w = p0.

Lemma same_price_log (line : string) : preserves same_price (console_error_log line).
Proof. intros w H. exact H. Qed.

Lemma same_price_saveData (io : IO) : preserves same_price (saveData io).
Proof.
  intros w H. unfold same_price. by destruct (saveData_memory io w) as (_ & -> & _).
Qed.

Lemma same_price_assign (key : string) (a : Assignment) :
  preserves same_price (assign key a).
Proof.
  intros w H. unfold assign. run. by destruct (lookup_giftCards w key).
Qed.

Lemma same_price_app (now : string) (io : IO) (req : Request) :
  is_price_update req = false → preserves same_price (app now io req).
Proof.
  intros Hreq. destruct req; try discriminate Hreq;
    unfold app, authenticate, get_price, validate, admin_cards, admin_stats,
      admin_cards_status, admin_cards_price, not_found, giftCards_at, assign_at,
      ToPropertyKey;
    pres_by same_price_log same_price_saveData same_price_assign;
    apply preserves_modify; intros w H; exact H.
Qed.
End Price_frame.

(** The global price changes through [POST /api/admin/price] only:
    every other request, whatever its body and credentials, leaves
    [currentPrice] as it was. *)
Theorem only_price_route_changes_price
    (now : string) (io : IO) (req : Request) (w : World) :
  is_price_update req = false →
  currentPrice (app now io req w).2 = currentPrice w.
Proof.
  intros Hreq. by apply (same_price_app (currentPrice w) now io req Hreq w).
Qed.

(** The three ways [validate] ends. *)
Lemma validate_cases (now : string) (io : IO) (code : Value) (w : World) :
  validate now io code w = (Return InvalidFormat, w)
  ∨ (∃ s c, code = VStr s ∧ giftCards w !! s = Some c
       ∧ validate now io code w
         = (Return (json (ValidateBody (RCard c) (currentPrice w))), w))
  ∨ (∃ s, code = VStr s ∧ CODE_PATTERN s = true ∧ giftCards w !! s = None
       ∧ validate now io code w
         = (Return (json (ValidateBody (RCard (pending_card s now)) (currentPrice w))),
            (saveData io (with_giftCards (<[s := pending_card s now]> (giftCards w)) w)).2)).
Proof.
  destruct code as [| | | |s| |]; try (left; reflexivity).
  destruct (CODE_PATTERN s) eqn:Hp.
  - destruct (giftCards w !! s) as [c|] eqn:Hs.
    + right; left. exists s, c. auto using validate_existing.
    + right; right. exists s. auto using validate_new.
  - left. unfold validate. run. rewrite Hp. simpl. by rewrite orb_true_r.
Qed.

Section Cards_frame.
Variable g0 : gmap string Card.

Lemma keeps_cards_log (line : string) :
  preserves (keeps_cards g0) (console_error_log line).
Proof. intros w H. exact H. Qed.

Lemma keeps_cards_saveData (io : IO) : preserves (keeps_cards g0) (saveData io).
Proof.
  intros w H k c Hk. destruct (saveData_memory io w) as (-> & _ & _). by apply H.
Qed.

Lemma keeps_cards_assign (key : string) (a : Assignment) :
  preserves (keeps_cards g0) (assign key a).
Proof.
  intros w H. unfold assign, lookup_giftCards. run.
  destruct (giftCards w !! key) as [c0|] eqn:Hkey.
  - intros k c Hk. simpl. destruct (H k c Hk) as (c' & Hc' & Hcode & Htime).
    destruct (decide (key = k)) as [->|Hne].
    + rewrite lookup_insert_eq. exists (assign_Card a c0).
      assert (c' = c0) as -> by congruence.
      split; [reflexivity|]. by destruct a.
    + rewrite lookup_insert_ne by done. eauto.
  - pose proof (inherited_not_card (builtins w) key) as Hn.
    destruct (inherited (builtins w) key) as [|c1| | | |]; try exact H.
    by destruct (Hn c1).
Qed.

Lemma keeps_cards_validate (now : string) (io : IO) (code : Value) :
  preserves (keeps_cards g0) (validate now io code).
Proof.
  intros w H.
  destruct (validate_cases now io code w)
    as [-> | [(s & c & _ & _ & ->) | (s & _ & _ & Hs & ->)]]; try exact H.
  intros k c Hk. simpl. destruct (saveData_memory io
    (with_giftCards (<[s := pending_card s now]> (giftCards w)) w)) as (-> & _ & _).
  destruct (H k c Hk) as (c' & Hc' & Hrest). exists c'. split; [|exact Hrest].
  simpl. rewrite lookup_insert_ne; [exact Hc' | congruence].
Qed.

Lemma keeps_cards_admin_price (now : string) (io : IO) (amount currency : Value) :
  preserves (keeps_cards g0) (admin_price now io amount currency).
Proof. intros w H k c Hk. rewrite admin_price_giftCards. by apply H. Qed.

Lemma keeps_cards_app (now : string) (io : IO) (req : Request) :
  preserves (keeps_cards g0) (app now io req).
Proof.
  destruct req;
    unfold app, authenticate, get_price, admin_cards, admin_stats,
      admin_cards_status, admin_cards_price, not_found, giftCards_at, assign_at,
      ToPropertyKey;
    pres_by keeps_cards_log keeps_cards_saveData keeps_cards_assign;
    auto using keeps_cards_validate, keeps_cards_admin_price.
Qed.
End Cards_frame.

(** No request removes a record, renames it or changes its creation
    time: a code that is registered stays registered, with the [code] and
    [createdAt] it had. *)
Theorem cards_are_never_removed
    (now : string) (io : IO) (req : Request) (w : World) (k : string) (c : Card) :
  giftCards w !! k = Some c →
  ∃ c', giftCards (app now io req w).2 !! k = Some c'
        ∧ code c' = code c ∧ createdAt c' = createdAt c.
Proof.
  intros Hk.
  apply (keeps_cards_app (giftCards w) now io req w); [|exact Hk].
  intros k' c0 Hk'. eauto.
Qed.

Lemma authenticate_refuses (u p : Value) (next : M Response) (w : World) :
  ¬ (u = VStr ADMIN_USERNAME ∧ p = VStr ADMIN_PASSWORD) →
  authenticate u p next w = (Return Unauthorized, w).
Proof.
  intros H. unfold authenticate.
  replace (strict_equals u ADMIN_USERNAME && strict_equals p ADMIN_PASSWORD) with false;
    [reflexivity|].
  symmetry. apply not_true_is_false.
  by rewrite andb_true_iff, !strict_equals_spec.
Qed.

Lemma authenticate_admits (next : M Response) :
  authenticate (VStr ADMIN_USERNAME) (VStr ADMIN_PASSWORD) next = next.
Proof. unfold authenticate. simpl. by rewrite !String.eqb_refl. Qed.

(** A request without valid admin credentials can do one thing to the
    state: register the code it validates, as a pending card without a
    price.  It changes no existing record, not the global price, and
    nothing on [Object.prototype]. *)
Theorem unauthenticated_requests_only_register
    (now : string) (io : IO) (req : Request) (w : World) :
  unauthenticated req →
  currentPrice (app now io req w).2 = currentPrice w
  ∧ builtins (app now io req w).2 = builtins w
  ∧ ∀ k, giftCards (app now io req w).2 !! k = giftCards w !! k
         ∨ (giftCards w !! k = None
            ∧ req = POST_validate (VStr k)
            ∧ giftCards (app now io req w).2 !! k = Some (pending_card k now)).
Proof.
  intros Hreq.
  destruct req as [u p| |u p a c|code|u p|u p a c|u p a c|u p]; simpl in Hreq;
    try (unfold app; rewrite (authenticate_refuses u p _ w Hreq); by auto).
  - by auto.
  - unfold app.
    destruct (validate_cases now io code w)
      as [-> | [(s & c & _ & _ & ->) | (s & -> & _ & Hs & ->)]]; try by auto.
    simpl.
    destruct (saveData_memory io
      (with_giftCards (<[s := pending_card s now]> (giftCards w)) w))
      as (-> & -> & ->).
    simpl. split; [reflexivity|]. split; [reflexivity|]. intros k.
    destruct (decide (s = k)) as [->|Hne].
    + right. by rewrite lookup_insert_eq.
    + left. by rewrite lookup_insert_ne.
Qed.

(** ** Durability *)

Lemma JSON_Amount_idempotent (a : Amount) : JSON_Amount (JSON_Amount a) = JSON_Amount a.
Proof. by destruct a as [[[]|[]| |]|]. Qed.

Lemma JSON_Card_idempotent (c : Card) : JSON_Card (JSON_Card c) = JSON_Card c.
Proof.
  destruct c as [k s t u [[a cur]|]]; unfold JSON_Card, JSON_CardPrice; simpl;
    by rewrite ?JSON_Amount_idempotent.
Qed.

Lemma JSON_giftCards_idempotent (g : gmap string Card) :
  JSON_giftCards (JSON_giftCards g) = JSON_giftCards g.
Proof.
  unfold JSON_giftCards. rewrite <- map_fmap_compose. apply map_fmap_ext.
  intros k c _. apply JSON_Card_idempotent.
Qed.

Lemma JSON_currentPrice_idempotent (p : option PriceRecord) :
  JSON_currentPrice (JSON_currentPrice p) = JSON_currentPrice p.
Proof.
  destruct p as [[a c t]|]; unfold JSON_currentPrice, JSON_PriceRecord; simpl;
    by rewrite ?JSON_Amount_idempotent.
Qed.

Lemma startServer_disk (d : Disk) : disk (startServer d) = d.
Proof. by destruct d as [[| |g] [| |p]]. Qed.

Lemma durable_saveData (w0 : World) : durable (saveData io_ok w0).2.
Proof.
  unfold durable. rewrite (saveData_written io_ok w0 eq_refl eq_refl).
  destruct (saveData_memory io_ok w0) as (-> & -> & _).
  apply startServer_Content.
Qed.

Lemma durable_settled (w w' : World) : settled io_ok w w' → durable w → durable w'.
Proof.
  intros [(Hg & Hp & Hd) | (w0 & ->)] Hw.
  - unfold durable. by rewrite Hg, Hp, Hd.
  - apply durable_saveData.
Qed.

Lemma durable_restart (w : World) : durable w → durable (startServer (disk w)).
Proof.
  intros [Hg Hp]. unfold durable. rewrite startServer_disk, Hg, Hp.
  by rewrite JSON_giftCards_idempotent, JSON_currentPrice_idempotent.
Qed.

(** An assignment to [giftCards[key]] goes through whenever the lookup
    is not [undefined], and the lookup is not [undefined] afterwards. *)
Lemma assign_defined (key : string) (a : Assignment) (w : World) :
  lookup_giftCards w key ≠ RUndefined →
  ∃ w1, assign key a w = (Return tt, w1)
        ∧ lookup_giftCards w1 key ≠ RUndefined.
Proof.
  unfold assign, lookup_giftCards. run.
  destruct (giftCards w !! key) as [c|] eqn:Hk.
  - intros _. eexists. split; [reflexivity|]. simpl. by rewrite lookup_insert_eq.
  - unfold inherited. intros Hr.
    repeat case_decide; subst;
      repeat match goal with
        | H : context [from_option _ _ ?o] |- _ => destruct o eqn:?; simpl in H
        | |- context [from_option _ _ ?o] => destruct o eqn:?; simpl
        end;
      try done; eexists; (split; [reflexivity|]); simpl; rewrite ?Hk;
      unfold inherited; repeat case_decide; try done; simpl;
      by repeat match goal with H : _ = Some _ |- _ => rewrite H end.
Qed.

Lemma truthy_ref_defined (r : Ref) : truthy_ref r = true → r ≠ RUndefined.
Proof. by intros H ->. Qed.

Lemma settled_refl (io : IO) (w : World) : settled io w w.
Proof. by left. Qed.

Lemma settled_saved (io : IO) (w w0 : World) : settled io w (saveData io w0).2.
Proof. right. by exists w0. Qed.

Lemma validate_settled (now : string) (io : IO) (code : Value) (w : World) :
  settled io w (validate now io code w).2.
Proof.
  destruct (validate_cases now io code w)
    as [-> | [(s & c & _ & _ & ->) | (s & _ & _ & _ & ->)]];
    simpl; auto using settled_refl, settled_saved.
Qed.

Lemma admin_price_settled (now : string) (io : IO) (amount currency : Value) (w : World) :
  settled io w (admin_price now io amount currency w).2.
Proof.
  destruct amount as [| | |n| | |]; try apply settled_refl.
  destruct (lt_zero n) eqn:Hn; [unfold admin_price; run; rewrite Hn; apply settled_refl|].
  destruct currency as [| | | |c| |];
    try (unfold admin_price; run; rewrite Hn; apply settled_refl).
  destruct (truthy (VStr c)) eqn:Hc.
  - rewrite (admin_price_accepts now io n c w Hn); [|by apply truthy_VStr].
    apply settled_saved.
  - unfold admin_price. run. rewrite Hn, Hc. apply settled_refl.
Qed.

(** Both card routes end in the same way once the checks have passed:
    two assignments, [saveData], and the answer. *)
Lemma assign_assign_save
    (io : IO) (key : string) (a1 a2 : Assignment) (answer : Ref → Response) (w : World) :
  lookup_giftCards w key ≠ RUndefined →
  ∃ w2, (assign key a1;; assign key a2;; saveData io;;
         card ← get (λ w, lookup_giftCards w key); ret (answer card)) w
        = (Return (answer (lookup_giftCards (saveData io w2).2 key)), (saveData io w2).2).
Proof.
  intros H.
  destruct (assign_defined key a1 w H) as (w1 & E1 & H1).
  destruct (assign_defined key a2 w1 H1) as (w2 & E2 & _).
  exists w2. run. rewrite E1, E2.
  pose proof (saveData_returns io w2) as Hr.
  destruct (saveData io w2) as [r w3]. simpl in *. by subst r.
Qed.

(** The ways the two card routes end. *)
Lemma admin_cards_status_cases
    (now : string) (io : IO) (code status : Value) (w : World) :
  let r := admin_cards_status now io code status w in
  ((truthy code = false
    ∨ ∃ key, ToString code = Some key ∧ truthy_ref (lookup_giftCards w key) = false)
   ∧ r = (Return NotFound, w))
  ∨ r = (Return InvalidStatus, w)
  ∨ (truthy code = true ∧ ToString code = None
     ∧ r = (Return InternalError,
            with_console_error (console_error w ++ ["Error updating card status:"]) w))
  ∨ (∃ key s w2, ToString code = Some key ∧ includes STATUSES status = Some s
       ∧ r = (Return (json (CardBody "Status updated successfully"
                              (lookup_giftCards (saveData io w2).2 key))),
              (saveData io w2).2)).
Proof.
  intros r. subst r.
  destruct (truthy code) eqn:Ht;
    [|left; split; [by left|]; unfold admin_cards_status, not_found; by rewrite Ht].
  destruct (ToString code) as [key|] eqn:Hkey;
    [|right; right; left; auto using handler_exception_status].
  unfold admin_cards_status, not_found, giftCards_at, assign_at, ToPropertyKey.
  rewrite Ht, Hkey.
  destruct (truthy_ref (lookup_giftCards w key)) eqn:Hr;
    [|left; split; [right; by exists key|]; run; simpl; by rewrite Hr].
  destruct (includes STATUSES status) as [s|];
    [|right; left; run; simpl; by rewrite Hr].
  destruct (assign_assign_save io key (SetStatus s) (SetUpdatedAt now)
              (λ card, json (CardBody "Status updated successfully" card)) w
              (truthy_ref_defined _ Hr)) as (w2 & E).
  right; right; right. exists key, s, w2. split; [done|]. split; [done|].
  run. simpl in *. rewrite Hr. simpl. by rewrite E.
Qed.

Lemma admin_cards_price_cases
    (now : string) (io : IO) (code amount : Value) (w : World) :
  let r := admin_cards_price now io code amount w in
  ((truthy code = false
    ∨ ∃ key, ToString code = Some key ∧ truthy_ref (lookup_giftCards w key) = false)
   ∧ r = (Return NotFound, w))
  ∨ r = (Return InvalidAmount, w)
  ∨ (truthy code = true ∧ ToString code = None
     ∧ r = (Return InternalError,
            with_console_error (console_error w ++ ["Error updating card price:"]) w))
  ∨ (∃ key n w2, ToString code = Some key ∧ amount = VNum n ∧ lt_zero n = false
       ∧ r = (Return (json (CardBody "Price updated successfully"
                              (lookup_giftCards (saveData io w2).2 key))),
              (saveData io w2).2)).
Proof.
  intros r. subst r.
  destruct (truthy code) eqn:Ht;
    [|left; split; [by left|]; unfold admin_cards_price, not_found; by rewrite Ht].
  destruct (ToString code) as [key|] eqn:Hkey;
    [|right; right; left; auto using handler_exception_price].
  unfold admin_cards_price, not_found, giftCards_at, assign_at, ToPropertyKey.
  rewrite Ht, Hkey.
  destruct (truthy_ref (lookup_giftCards w key)) eqn:Hr;
    [|left; split; [right; by exists key|]; run; simpl; by rewrite Hr].
  destruct amount as [| | |n| | |]; try (right; left; run; simpl; by rewrite Hr).
  destruct (lt_zero n) eqn:Hn; [right; left; run; simpl; by rewrite Hr|].
  destruct (assign_assign_save io key
              (SetPrice {| amount := Num n;
                           currency := match currentPrice w with
                                       | Some p => price_currency p
                                       | None => "USD"
                                       end |})
              (SetUpdatedAt now)
              (λ card, json (CardBody "Price updated successfully" card)) w
              (truthy_ref_defined _ Hr)) as (w2 & E).
  right; right; right. exists key, n, w2. split; [done|]. split; [done|].
  split; [done|].
  run. simpl in *. rewrite Hr. simpl. by rewrite E.
Qed.

Lemma admin_cards_status_settled
    (now : string) (io : IO) (code status : Value) (w : World) :
  settled io w (admin_cards_status now io code status w).2.
Proof.
  destruct (admin_cards_status_cases now io code status w)
    as [[_ ->] | [-> | [(_ & _ & ->) | (key & s & w2 & _ & _ & ->)]]];
    simpl; auto using settled_refl, settled_saved.
  by left.
Qed.

Lemma admin_cards_price_settled
    (now : string) (io : IO) (code amount : Value) (w : World) :
  settled io w (admin_cards_price now io code amount w).2.
Proof.
  destruct (admin_cards_price_cases now io code amount w)
    as [[_ ->] | [-> | [(_ & _ & ->) | (key & n & w2 & _ & _ & _ & ->)]]];
    simpl; auto using settled_refl, settled_saved.
  by left.
Qed.

Lemma app_settled (now : string) (io : IO) (req : Request) (w : World) :
  settled io w (app now io req w).2.
Proof.
  destruct req as [u p| |u p a c|code|u p|u p a c|u p a c|u p];
    unfold app, authenticate;
    repeat match goal with |- context [if ?b then _ else _] => destruct b end;
    auto using settled_refl, validate_settled, admin_price_settled,
      admin_cards_status_settled, admin_cards_price_settled.
Qed.

(** A request never leaves a change of the cards or of the price
    unsaved, so while every write succeeds the files stay current: from
    an empty data directory on, after each request and each restart, a
    process started on the files would hold the card map and the price of
    the running one, as JSON renders them. *)
Theorem files_stay_current :
  durable (startServer empty_disk)
  ∧ (∀ now req w, durable w → durable (app now io_ok req w).2)
  ∧ (∀ w, durable w → durable (startServer (disk w))).
Proof.
  split; [by split|]. split.
  - intros now req w. apply durable_settled, app_settled.
  - apply durable_restart.
Qed.

Lemma saveData_then_restart (w : World) :
  giftCards (startServer (disk (saveData io_ok w).2)) = JSON_giftCards (giftCards w)
  ∧ currentPrice (startServer (disk (saveData io_ok w).2))
    = JSON_currentPrice (currentPrice w).
Proof.
  rewrite (saveData_written io_ok w eq_refl eq_refl). apply startServer_Content.
Qed.

(** What JSON loses of the numbers it loses at the first restart: the
    state that comes back from the files has only amounts that are
    written and read back unchanged, and saving and loading it again
    returns exactly that state. *)
Theorem second_restart_is_exact (w : World) :
  let w1 := startServer (disk (saveData io_ok w).2) in
  let w2 := startServer (disk (saveData io_ok w1).2) in
  restorable_memory w1
  ∧ giftCards w2 = giftCards w1
  ∧ currentPrice w2 = currentPrice w1.
Proof.
  intros w1 w2.
  destruct (saveData_then_restart w) as [Hg Hp]. fold w1 in Hg, Hp.
  destruct (saveData_then_restart w1) as [Hg2 Hp2]. fold w2 in Hg2, Hp2.
  assert (Hg1 : JSON_giftCards (giftCards w1) = giftCards w1)
    by (rewrite Hg; apply JSON_giftCards_idempotent).
  assert (Hp1 : JSON_currentPrice (currentPrice w1) = currentPrice w1)
    by (rewrite Hp; apply JSON_currentPrice_idempotent).
  split; [|by rewrite Hg2, Hp2, Hg1, Hp1].
  split; [by apply JSON_giftCards_restorable | by apply JSON_currentPrice_restorable].
Qed.

(** ** Which requests are answered with 500 *)


(** ** The card list and the statistics *)

(** The cards route answers with the registered records, each once. *)
Theorem cards_route_lists_registry (w : World) :
  ∃ cards : list Card,
    admin_cards w = (Return (json (CardsBody cards)), w)
    ∧ length cards = size (giftCards w)
    ∧ (∀ c, c ∈ cards ↔ ∃ k, giftCards w !! k = Some c)
    ∧ (reachable w → NoDup cards).
Proof.
  exists (Object_values (giftCards w)). unfold Object_values.
  split; [reflexivity|]. split; [by rewrite length_fmap, length_map_to_list|]. split.
  - intros c. rewrite list_elem_of_fmap. split.
    + intros ([k c'] & -> & H). exists k. by apply elem_of_map_to_list.
    + intros (k & H). exists (k, c). split; [done|]. by apply elem_of_map_to_list.
  - intros Hw. apply reachable_consistent in Hw as [Hg _].
    apply NoDup_fmap_2_strong; [|apply NoDup_map_to_list].
    intros [k1 c1] [k2 c2] H1 H2 Hc. simpl in Hc. subst c2.
    apply elem_of_map_to_list in H1, H2.
    destruct (Hg k1 c1 H1) as (<- & _), (Hg k2 c1 H2) as (<- & _). done.
Qed.

Lemma count_status_cons (name : string) (c : Card) (cards : list Card) :
  count_status name (c :: cards) = (one_if (status c) name + count_status name cards)%nat.
Proof.
  unfold count_status, one_if. rewrite filter_cons. by case_decide.
Qed.

Lemma count_status_Permutation (name : string) (l1 l2 : list Card) :
  l1 ≡ₚ l2 → count_status name l1 = count_status name l2.
Proof. intros H. unfold count_status. by rewrite H. Qed.

Lemma Object_values_insert_fresh (g : gmap string Card) (k : string) (c : Card) :
  g !! k = None → Object_values (<[k := c]> g) ≡ₚ c :: Object_values g.
Proof.
  intros Hk. unfold Object_values. by rewrite (map_to_list_insert g k c Hk).
Qed.

Lemma Object_values_registered (g : gmap string Card) (k : string) (c : Card) :
  g !! k = Some c → Object_values g ≡ₚ c :: Object_values (delete k g).
Proof.
  intros Hk. unfold Object_values. by rewrite <- (map_to_list_delete g k c Hk).
Qed.

Lemma Object_values_replace (g : gmap string Card) (k : string) (c' : Card) :
  Object_values (<[k := c']> g) ≡ₚ c' :: Object_values (delete k g).
Proof.
  rewrite <- (insert_delete_eq g). apply Object_values_insert_fresh, lookup_delete_eq.
Qed.

Lemma stats_at_eq (w : World) :
  stats_at w =
  Some {| total := length (Object_values (giftCards w));
          accepted := count_status "accepted" (Object_values (giftCards w));
          declined := count_status "declined" (Object_values (giftCards w));
          pending := count_status "pending" (Object_values (giftCards w)) |}.
Proof. reflexivity. Qed.

(** The first validation of a code raises [total] and [pending] by one
    and leaves the other two counts. *)
Theorem stats_after_validate
    (now : string) (io : IO) (s : string) (w : World) (st : Stats) :
  CODE_PATTERN s = true →
  giftCards w !! s = None →
  stats_at w = Some st →
  stats_at (validate now io (VStr s) w).2
  = Some {| total := S (total st); accepted := accepted st;
            declined := declined st; pending := S (pending st) |}.
Proof.
  intros Hp Hs Hst. rewrite stats_at_eq in Hst. injection Hst as <-.
  rewrite (validate_new now io s w Hp Hs), stats_at_eq. simpl.
  destruct (saveData_memory io
    (with_giftCards (<[s := pending_card s now]> (giftCards w)) w)) as (-> & _ & _).
  simpl.
  pose proof (Object_values_insert_fresh (giftCards w) s (pending_card s now) Hs) as Hperm.
  rewrite !(count_status_Permutation _ _ _ Hperm), !count_status_cons.
  by rewrite (Permutation_length Hperm).
Qed.

(** A status update moves the record from the counter of its old status
    to the counter of the new one; [total] stays. *)
Theorem stats_after_status_update
    (now : string) (io : IO) (k s : string) (c : Card) (w : World) (st : Stats) :
  reachable w →
  giftCards w !! k = Some c →
  s ∈ STATUSES →
  stats_at w = Some st →
  ∃ st', stats_at (admin_cards_status now io (VStr k) (VStr s) w).2 = Some st'
         ∧ total st' = total st
         ∧ (accepted st' + one_if (status c) "accepted"
            = accepted st + one_if s "accepted")%nat
         ∧ (declined st' + one_if (status c) "declined"
            = declined st + one_if s "declined")%nat
         ∧ (pending st' + one_if (status c) "pending"
            = pending st + one_if s "pending")%nat.
Proof.
  intros Hw Hk Hs Hst. apply reachable_consistent in Hw as [Hg _].
  pose proof (cards_ok_key_truthy _ k c Hg Hk) as Ht.
  rewrite stats_at_eq in Hst. injection Hst as <-.
  rewrite (admin_cards_status_registered now io k s c w Ht Hk Hs).
  eexists. split; [apply stats_at_eq|]. simpl.
  destruct (saveData_memory io
    (with_giftCards (<[k := with_status s now c]> (giftCards w)) w)) as (-> & _ & _).
  simpl.
  pose proof (Object_values_registered (giftCards w) k c Hk) as Hold.
  pose proof (Object_values_replace (giftCards w) k (with_status s now c)) as Hnew.
  rewrite !(count_status_Permutation _ _ _ Hold), !(count_status_Permutation _ _ _ Hnew).
  rewrite (Permutation_length Hold), (Permutation_length Hnew).
  rewrite !count_status_cons. simpl. repeat split; lia.
Qed.

(** ** Compositions and edge cases *)

(** [saveData] writes the price file only after the cards file has been
    written: when the cards write fails, an accepted price update is
    answered with 200 and held in memory, but the price file is left as
    it was, whether or not it could have been written. *)
Theorem price_update_lost_with_cards_write
    (now : string) (io : IO) (n : number) (c : string) (w : World) :
  SFleb zero n = true → c ≠ "" →
  cards_write io ≠ Written →
  let r := admin_price now io (VNum n) (VStr c) w in
  let p := {| price_amount := Num n; price_currency := c; price_updatedAt := now |} in
  r.1 = Return (json (PriceUpdatedBody "Price updated successfully" (Some p)))
  ∧ currentPrice r.2 = Some p
  ∧ PRICE_FILE (disk r.2) = PRICE_FILE (disk w)
  ∧ currentPrice (startServer (disk r.2)) = currentPrice (startServer (disk w)).
Proof.
  intros Hn Hc Hio r p. subst r.
  rewrite (admin_price_accepts now io n c w (nonneg_number_lt_zero n Hn) Hc).
  fold p. simpl. rewrite saveData_unfold.
  assert (Hload : ∀ d d', PRICE_FILE d = PRICE_FILE d' →
            currentPrice (startServer d) = currentPrice (startServer d')).
  { intros [[| |g] pf] [[| |g'] pf']; simpl; intros ->; by destruct pf'. }
  destruct (cards_write io); [done| |]; repeat split; by apply Hload.
Qed.


(** The login route answers 200 exactly when both credentials are the
    configured strings, and never changes the state. *)
Theorem login_succeeds_iff (now : string) (io : IO) (u p : Value) (w : World) :
  ((app now io (POST_admin_login u p) w).1 = Return (json (Message true "Login successful"))
   ↔ u = VStr ADMIN_USERNAME ∧ p = VStr ADMIN_PASSWORD)
  ∧ (app now io (POST_admin_login u p) w).2 = w.
Proof.
  unfold app, authenticate.
  destruct (strict_equals u ADMIN_USERNAME && strict_equals p ADMIN_PASSWORD) eqn:H.
  - split; [|reflexivity]. split; [|done]. intros _.
    apply andb_true_iff in H. by rewrite !strict_equals_spec in H.
  - split; [|reflexivity]. split; [done|]. intros [-> ->].
    simpl in H. by rewrite !String.eqb_refl in H.
Qed.

(** The card routes convert the code to a property key, so a one-element
    array around a code is taken for the code; [validate] rejects it. *)
Theorem array_code_is_its_element
    (now : string) (io : IO) (k : string) (v : Value) (w : World) :
  k ≠ "" →
  admin_cards_status now io (VArr [VStr k]) v w = admin_cards_status now io (VStr k) v w
  ∧ admin_cards_price now io (VArr [VStr k]) v w = admin_cards_price now io (VStr k) v w
  ∧ validate now io (VArr [VStr k]) w = (Return InvalidFormat, w).
Proof.
  intros Hk. apply truthy_VStr in Hk.
  unfold admin_cards_status, admin_cards_price, not_found, giftCards_at, assign_at,
    ToPropertyKey.
  change (ToString (VArr [VStr k])) with (Some k).
  change (ToString (VStr k)) with (Some k).
  change (truthy (VArr [VStr k])) with true.
  by rewrite Hk.
Qed.

Lemma saveData_pair (io : IO) (w : World) :
  saveData io w = (Return tt, (saveData io w).2).
Proof.
  rewrite <- (saveData_returns io w). by destruct (saveData io w).
Qed.

Lemma lookup_proto (w : World) :
  giftCards w !! "__proto__" = None →
  lookup_giftCards w "__proto__" = RPrototype (prototype (builtins w)).
Proof. intros H. unfold lookup_giftCards. by rewrite H. Qed.

Lemma assign_proto (a : Assignment) (w : World) :
  giftCards w !! "__proto__" = None →
  assign "__proto__" a w
  = (Return tt,
     with_builtins
       (assign_Builtins (RPrototype (prototype (builtins w))) a (builtins w)) w).
Proof. intros H. unfold assign. run. by rewrite (lookup_proto w H). Qed.

Lemma lowercase_key_is_free (w : World) (key : string) :
  cards_ok (giftCards w) → CODE_PATTERN key = false → giftCards w !! key = None.
Proof.
  intros Hg Hkey. destruct (giftCards w !! key) as [c|] eqn:E; [|done].
  destruct (Hg key c E) as (_ & Hp & _). congruence.
Qed.

(** A status update addressed to ['__proto__'] is accepted in every
    reachable state; it leaves the registry alone and puts the status on
    [Object.prototype], after which ['status'] is no longer answered with
    404 by the status route. *)
Theorem proto_code_pollutes_prototype
    (now now' : string) (io io' : IO) (s : string) (v : Value) (w : World) :
  reachable w →
  s ∈ STATUSES →
  let r := admin_cards_status now io (VStr "__proto__") (VStr s) w in
  (∃ own, r.1 = Return (json (CardBody "Status updated successfully" (RPrototype own)))
          ∧ added_status own = Some s)
  ∧ giftCards r.2 = giftCards w
  ∧ added_status (prototype (builtins r.2)) = Some s
  ∧ lookup_giftCards r.2 "status" = RString s
  ∧ (admin_cards_status now' io' (VStr "status") v r.2).1 ≠ Return NotFound.
Proof.
  intros Hw Hs r. apply reachable_consistent in Hw as [Hg _].
  pose proof (lowercase_key_is_free w "__proto__" Hg eq_refl) as Hproto.
  pose proof (lowercase_key_is_free w "status" Hg eq_refl) as Hstatus.
  assert (Hi : includes STATUSES (VStr s) = Some s) by by apply includes_Some.
  assert (Hr : ∃ w2, giftCards w2 = giftCards w
                     ∧ added_status (prototype (builtins w2)) = Some s
                     ∧ r = (Return (json (CardBody "Status updated successfully"
                                            (lookup_giftCards (saveData io w2).2
                                               "__proto__"))),
                            (saveData io w2).2)).
  { subst r.
    unfold admin_cards_status, not_found, giftCards_at, assign_at, ToPropertyKey.
    change (ToString (VStr "__proto__")) with (Some "__proto__").
    change (truthy (VStr "__proto__")) with true.
    rewrite Hi. run. simpl. rewrite (lookup_proto w Hproto). simpl.
    rewrite (assign_proto (SetStatus s) w Hproto).
    rewrite (assign_proto (SetUpdatedAt now)); [|exact Hproto].
    rewrite saveData_pair. simpl.
    eexists. split; [|split]; cycle 2.
    - reflexivity.
    - reflexivity.
    - reflexivity. }
  destruct Hr as (w2 & Hg2 & Hb2 & Hr).
  destruct (saveData_memory io w2) as (Hg3 & _ & Hb3).
  assert (Hlook : lookup_giftCards r.2 "status" = RString s).
  { rewrite Hr. unfold lookup_giftCards. simpl. rewrite Hg3, Hb3, Hg2, Hstatus.
    unfold inherited. simpl. by rewrite Hb2. }
  split.
  { exists (prototype (builtins (saveData io w2).2)). rewrite Hr. simpl.
    rewrite lookup_proto by (by rewrite Hg3, Hg2). by rewrite Hb3. }
  split; [by rewrite Hr; simpl; rewrite Hg3|].
  split; [by rewrite Hr; simpl; rewrite Hb3|]. split; [exact Hlook|].
  destruct (admin_cards_status_cases now' io' (VStr "status") v r.2)
    as [[Hnf _] | [-> | [(_ & [=] & _) | (key & s' & w4 & _ & _ & ->)]]]; try done.
  assert (Hne : s ≠ "") by (intros ->; unfold STATUSES in Hs; set_solver).
  destruct Hnf as [[=] | (key & [= <-] & Hfalse)].
  rewrite Hlook in Hfalse. simpl in Hfalse.
  apply String.eqb_neq in Hne. by rewrite Hne in Hfalse.
Qed.

(** The card routes answer 404 exactly when the code is falsy or the
    lookup of its property key on [giftCards] is: a 404 is never given
    for a code whose lookup succeeds, and never hides another error. *)
Theorem not_found_characterised
    (now : string) (io : IO) (code v : Value) (w : World) :
  ((admin_cards_status now io code v w).1 = Return NotFound
   ↔ truthy code = false
     ∨ ∃ key, ToString code = Some key ∧ truthy_ref (lookup_giftCards w key) = false)
  ∧ ((admin_cards_price now io code v w).1 = Return NotFound
     ↔ truthy code = false
       ∨ ∃ key, ToString code = Some key ∧ truthy_ref (lookup_giftCards w key) = false).
Proof.
  split; split.
  - destruct (admin_cards_status_cases now io code v w)
      as [[H _] | [-> | [(? & ? & ->) | (key & s & w2 & _ & _ & ->)]]]; done.
  - intros H. apply not_found_true in H.
    unfold admin_cards_status. run. by rewrite H.
  - destruct (admin_cards_price_cases now io code v w)
      as [[H _] | [-> | [(? & ? & ->) | (key & n & w2 & _ & _ & _ & ->)]]]; done.
  - intros H. apply not_found_true in H.
    unfold admin_cards_price. run. by rewrite H.
Qed.

End Server.

(** * The properties on concrete inputs *)

(** ** Numbers *)

Example lt_zero_neg : lt_zero (S754_finite true 1 0) = true.
Proof. reflexivity. Qed.

Example lt_zero_negzero : lt_zero (S754_zero true) = false.
Proof. reflexivity. Qed.

(** ** Requests on a fresh installation *)

(** C1 on the first validation of ["ABC123"]. *)
Lemma validate_registers_once_witness :
  CODE_PATTERN "ABC123" = true
  ∧ (validate t0 io_ok (VStr "ABC123") (startServer empty_disk)).1
    = Return (json (ValidateBody
                      (RCard (pending_card "ABC123" t0)) None)).
Proof.
  split; [reflexivity|].
  apply (validate_registers_once t0 io_ok "ABC123"
           (startServer empty_disk)); reflexivity.
Defined.

(** C2 on a code with lowercase letters and a dash. *)
Lemma validate_rejects_malformed_witness :
  validate t0 io_ok (VStr "abc-123") (startServer empty_disk)
  = (Return InvalidFormat, startServer empty_disk)
  ∧ statusCode InvalidFormat = 400.
Proof.
  apply validate_rejects_malformed.
  intros s [= <-]. reflexivity.
Defined.

(** C4 on the amount 1 in ["USD"]. *)
Lemma admin_price_contract_witness :
  VNum one ≠ VNum S754_nan
  ∧ currentPrice
      (admin_price t0 io_ok (VNum one) (VStr "USD")
         (startServer empty_disk)).2
    = Some {| price_amount := Num one; price_currency := "USD";
              price_updatedAt := t0 |}.
Proof.
  split; [discriminate|].
  destruct (admin_price_contract t0 io_ok (VNum one)
              (VStr "USD") (startServer empty_disk)) as (_ & _ & H & _);
    [discriminate|].
  apply (H one "USD" eq_refl eq_refl).
  - exists one. split; reflexivity.
  - exists "USD". split; [reflexivity | discriminate].
Defined.

(** C8 fails as stated: with both writes refused, the first [validate]
    of a code still answers 200 with the new record, and nothing has
    reached the disk. *)
Lemma failed_flush_is_answered_with_success :
  let io := {| cards_write := Refused; price_write := Refused |} in
  let r := validate t0 io (VStr "ABC123")
             (startServer empty_disk) in
  r.1 = Return {| statusCode := 200;
                  body := ValidateBody
                            (RCard (pending_card "ABC123" t0))
                            None |}
  ∧ r.1 ≠ Return InternalError
  ∧ disk r.2 = empty_disk
  ∧ console_error r.2 = ["Error saving data:"].
Proof. repeat split; try reflexivity. discriminate. Qed.

(** C9 fails as stated: an infinite amount (the body [{"amount": 1e999,
    "currency": "USD"}] parses to one) passes the amount check, and comes
    back from the file as [null]. *)
Lemma infinite_amount_is_not_restored :
  let w := (admin_price t0 io_ok (VNum infinity) (VStr "USD")
              (startServer empty_disk)).2 in
  let w' := startServer (disk (saveData io_ok w).2) in
  currentPrice w
  = Some {| price_amount := Num infinity; price_currency := "USD";
            price_updatedAt := t0 |}
  ∧ currentPrice w'
    = Some {| price_amount := Null; price_currency := "USD";
              price_updatedAt := t0 |}
  ∧ currentPrice w' ≠ currentPrice w.
Proof. repeat split; try reflexivity. discriminate. Qed.

(** ** Requests after a first validation *)

(** The example state is one the deployment reaches with its first
    request. *)
Lemma example_world_reachable :
  reachable sample_NumberToString "admin" "admin123" example_world.
Proof.
  exact (reachable_request sample_NumberToString "admin" "admin123"
           (startServer empty_disk) t0 io_ok (POST_validate (VStr "ABC123"))
           (reachable_start sample_NumberToString "admin" "admin123")).
Qed.

Example example_world_card :
  giftCards example_world !! "ABC123" = Some (pending_card "ABC123" t0).
Proof. reflexivity. Qed.

(** A numeric code is converted to its decimal digits before the lookup,
    so the number 7 finds the card registered as ["7"]. *)
Example numeric_code_finds_card :
  let w := (validate t0 io_ok (VStr "7") (startServer empty_disk)).2 in
  (admin_cards_status sample_NumberToString t1 io_ok
     (VNum (S754_finite false 7 0)) (VStr "accepted") w).1
  = Return (json (CardBody "Status updated successfully"
                    (RCard (with_status "accepted" t1 (pending_card "7" t0))))).
Proof. reflexivity. Qed.

(** C3 on the state with one pending card. *)
Lemma stats_total_is_sum_witness :
  reachable sample_NumberToString "admin" "admin123" example_world
  ∧ ∃ stats : Stats,
      admin_stats example_world = (Return (json (StatsBody stats)), example_world)
      ∧ total stats = (accepted stats + declined stats + pending stats)%nat.
Proof.
  split; [exact example_world_reachable|].
  destruct (stats_total_is_sum sample_NumberToString "admin" "admin123"
              example_world example_world_reachable) as (stats & H1 & H2 & _).
  exists stats. split; [exact H1 | exact H2].
Defined.

(** C5: accepting the card ["ABC123"]. *)
Lemma status_route_on_registered_witness :
  reachable sample_NumberToString "admin" "admin123" example_world
  ∧ giftCards example_world !! "ABC123" = Some (pending_card "ABC123" t0)
  ∧ giftCards
      (admin_cards_status sample_NumberToString t1 io_ok (VStr "ABC123")
         (VStr "accepted") example_world).2
    = <[ "ABC123" := with_status "accepted" t1 (pending_card "ABC123" t0) ]>
        (giftCards example_world).
Proof.
  split; [exact example_world_reachable|]. split; [reflexivity|].
  destruct (status_route_on_registered sample_NumberToString "admin" "admin123"
              t1 io_ok "ABC123" (pending_card "ABC123" t0) (VStr "accepted")
              example_world example_world_reachable eq_refl) as (_ & H & _).
  apply (H "accepted" eq_refl). unfold STATUSES. repeat constructor.
Defined.

(** C7: pricing the card ["ABC123"] while no global price is set. *)
Lemma card_price_route_on_registered_witness :
  reachable sample_NumberToString "admin" "admin123" example_world
  ∧ giftCards example_world !! "ABC123" = Some (pending_card "ABC123" t0)
  ∧ SFleb zero one = true
  ∧ giftCards
      (admin_cards_price sample_NumberToString t1 io_ok (VStr "ABC123")
         (VNum one) example_world).2
    = <[ "ABC123" := with_price {| amount := Num one; currency := "USD" |} t1
                       (pending_card "ABC123" t0) ]>
        (giftCards example_world).
Proof.
  split; [exact example_world_reachable|]. split; [reflexivity|].
  split; [reflexivity|].
  apply (card_price_route_on_registered sample_NumberToString "admin" "admin123"
           t1 io_ok "ABC123" (pending_card "ABC123" t0) one
           example_world example_world_reachable eq_refl eq_refl).
Defined.

(** A code that was never validated is not found, whatever the status. *)
Lemma unknown_code_not_found_witness :
  truthy_ref (lookup_giftCards example_world "XYZ789") = false
  ∧ admin_cards_status sample_NumberToString t1 io_ok (VStr "XYZ789") (VStr "expired")
      example_world
    = (Return NotFound, example_world).
Proof.
  split; [reflexivity|].
  apply (unknown_code_not_found sample_NumberToString t1 io_ok (VStr "XYZ789")
           (VStr "expired") (VNum minus_one) example_world).
  right. exists "XYZ789". split; reflexivity.
Defined.

(** The invariant on the card ["ABC123"]. *)
Lemma registry_invariant_witness :
  reachable sample_NumberToString "admin" "admin123" example_world
  ∧ giftCards example_world !! "ABC123" = Some (pending_card "ABC123" t0)
  ∧ code (pending_card "ABC123" t0) = "ABC123"
  ∧ CODE_PATTERN "ABC123" = true
  ∧ status (pending_card "ABC123" t0) ∈ STATUSES.
Proof.
  split; [exact example_world_reachable|]. split; [reflexivity|].
  apply (registry_invariant sample_NumberToString "admin" "admin123"
           example_world "ABC123" (pending_card "ABC123" t0)
           example_world_reachable eq_refl).
Defined.

(** A wrong password on the stats route. *)
Lemma admin_routes_need_credentials_witness :
  ¬ (VStr "admin" = VStr "admin" ∧ VStr "letmein" = VStr "admin123")
  ∧ app sample_NumberToString "admin" "admin123" t1 io_ok
      (POST_admin_stats (VStr "admin") (VStr "letmein")) example_world
    = (Return Unauthorized, example_world).
Proof.
  assert (H : ¬ (VStr "admin" = VStr "admin" ∧ VStr "letmein" = VStr "admin123"))
    by (intros [_ [=]]).
  split; [exact H|].
  apply (admin_routes_need_credentials sample_NumberToString "admin" "admin123"
           t1 io_ok (VStr "admin") (VStr "letmein") VUndefined VUndefined
           example_world H).
Defined.

(** Once ['__proto__'] has been used as a code, [Object.prototype] has a
    [status] property, and ['status'] passes the existence check too. *)
Example prototype_pollution :
  let w := startServer empty_disk in
  let w1 := (admin_cards_status sample_NumberToString t0 io_ok
               (VStr "__proto__") (VStr "accepted") w).2 in
  admin_cards_status sample_NumberToString t1 io_ok (VStr "status") (VStr "declined") w
  = (Return NotFound, w)
  ∧ added_status (prototype (builtins w1)) = Some "accepted"
  ∧ (admin_cards_status sample_NumberToString t1 io_ok
       (VStr "status") (VStr "declined") w1).1
    = Return (json (CardBody "Status updated successfully" (RString "accepted"))).
Proof. repeat split. Qed.

(** A code that cannot be converted to a property key. *)
Example unconvertible_code :
  admin_cards_price sample_NumberToString t1 io_ok
    (VArr [VObj [("toString", VNum one)]]) (VNum one) example_world
  = (Return InternalError,
     with_console_error ["Error updating card price:"] example_world).
Proof. reflexivity. Qed.

(** ** Further properties on the example state *)

(** A status update leaves the global price alone. *)
Lemma only_price_route_changes_price_witness :
  is_price_update (POST_admin_cards_status (VStr "admin") (VStr "admin123")
                     (VStr "ABC123") (VStr "accepted")) = false
  ∧ currentPrice
      (app sample_NumberToString "admin" "admin123" t1 io_ok
         (POST_admin_cards_status (VStr "admin") (VStr "admin123")
            (VStr "ABC123") (VStr "accepted")) example_world).2
    = currentPrice example_world.
Proof.
  split; [reflexivity|].
  apply (only_price_route_changes_price sample_NumberToString "admin" "admin123"
           t1 io_ok
           (POST_admin_cards_status (VStr "admin") (VStr "admin123")
              (VStr "ABC123") (VStr "accepted"))
           example_world eq_refl).
Defined.

(** The card ["ABC123"] survives a price update addressed to it. *)
Lemma cards_are_never_removed_witness :
  giftCards example_world !! "ABC123" = Some (pending_card "ABC123" t0)
  ∧ ∃ c', giftCards
            (app sample_NumberToString "admin" "admin123" t1 io_ok
               (POST_admin_cards_price (VStr "admin") (VStr "admin123")
                  (VStr "ABC123") (VNum one)) example_world).2 !! "ABC123" = Some c'
          ∧ code c' = "ABC123" ∧ createdAt c' = t0.
Proof.
  split; [reflexivity|].
  apply (cards_are_never_removed sample_NumberToString "admin" "admin123" t1 io_ok
           (POST_admin_cards_price (VStr "admin") (VStr "admin123")
              (VStr "ABC123") (VNum one))
           example_world "ABC123" (pending_card "ABC123" t0) eq_refl).
Defined.

(** A status update with a wrong password changes nothing. *)
Lemma unauthenticated_requests_only_register_witness :
  unauthenticated "admin" "admin123"
    (POST_admin_cards_status (VStr "admin") (VStr "guess") (VStr "ABC123") (VStr "accepted"))
  ∧ currentPrice
      (app sample_NumberToString "admin" "admin123" t1 io_ok
         (POST_admin_cards_status (VStr "admin") (VStr "guess")
            (VStr "ABC123") (VStr "accepted")) example_world).2
    = currentPrice example_world.
Proof.
  assert (H : unauthenticated "admin" "admin123"
                (POST_admin_cards_status (VStr "admin") (VStr "guess")
                   (VStr "ABC123") (VStr "accepted")))
    by (intros [_ [=]]).
  split; [exact H|].
  apply (unauthenticated_requests_only_register sample_NumberToString "admin" "admin123"
           t1 io_ok _ example_world H).
Defined.

(** A second code on the example state: two cards, both pending. *)
Lemma stats_after_validate_witness :
  CODE_PATTERN "GIFT42" = true
  ∧ giftCards example_world !! "GIFT42" = None
  ∧ stats_at example_world
    = Some {| total := 1; accepted := 0; declined := 0; pending := 1 |}
  ∧ stats_at (validate t1 io_ok (VStr "GIFT42") example_world).2
    = Some {| total := 2; accepted := 0; declined := 0; pending := 2 |}.
Proof.
  split; [reflexivity|]. split; [reflexivity|]. split; [reflexivity|].
  apply (stats_after_validate t1 io_ok "GIFT42" example_world
           {| total := 1; accepted := 0; declined := 0; pending := 1 |}
           eq_refl eq_refl eq_refl).
Defined.

(** Accepting the only card: one accepted, none pending. *)
Lemma stats_after_status_update_witness :
  reachable sample_NumberToString "admin" "admin123" example_world
  ∧ giftCards example_world !! "ABC123" = Some (pending_card "ABC123" t0)
  ∧ "accepted" ∈ STATUSES
  ∧ ∃ st', stats_at (admin_cards_status sample_NumberToString t1 io_ok
                       (VStr "ABC123") (VStr "accepted") example_world).2 = Some st'
           ∧ total st' = 1.
Proof.
  assert (Hin : "accepted" ∈ STATUSES) by (unfold STATUSES; repeat constructor).
  split; [exact example_world_reachable|]. split; [reflexivity|]. split; [exact Hin|].
  destruct (stats_after_status_update sample_NumberToString "admin" "admin123"
              t1 io_ok "ABC123" "accepted" (pending_card "ABC123" t0) example_world
              {| total := 1; accepted := 0; declined := 0; pending := 1 |}
              example_world_reachable eq_refl Hin eq_refl) as (st' & H1 & H2 & _).
  exists st'. split; [exact H1 | exact H2].
Defined.

(** A price update while the cards file cannot be written. *)
Lemma price_update_lost_with_cards_write_witness :
  SFleb zero one = true
  ∧ "USD" ≠ ""
  ∧ cards_write {| cards_write := Refused; price_write := Written |} ≠ Written
  ∧ PRICE_FILE
      (disk (admin_price t1 {| cards_write := Refused; price_write := Written |}
               (VNum one) (VStr "USD") example_world).2)
    = PRICE_FILE (disk example_world).
Proof.
  split; [reflexivity|]. split; [discriminate|]. split; [discriminate|].
  apply (price_update_lost_with_cards_write t1
           {| cards_write := Refused; price_write := Written |} one "USD" example_world
           eq_refl ltac:(discriminate) ltac:(discriminate)).
Defined.


(** The code [["ABC123"]] on the status route. *)
Lemma array_code_is_its_element_witness :
  "ABC123" ≠ ""
  ∧ admin_cards_status sample_NumberToString t1 io_ok
      (VArr [VStr "ABC123"]) (VStr "accepted") example_world
    = admin_cards_status sample_NumberToString t1 io_ok
        (VStr "ABC123") (VStr "accepted") example_world.
Proof.
  split; [discriminate|].
  apply (array_code_is_its_element sample_NumberToString t1 io_ok "ABC123"
           (VStr "accepted") example_world ltac:(discriminate)).
Defined.

(** The code ['__proto__'] on the example state. *)
Lemma proto_code_pollutes_prototype_witness :
  reachable sample_NumberToString "admin" "admin123" example_world
  ∧ "declined" ∈ STATUSES
  ∧ lookup_giftCards
      (admin_cards_status sample_NumberToString t1 io_ok
         (VStr "__proto__") (VStr "declined") example_world).2 "status"
    = RString "declined".
Proof.
  assert (Hin : "declined" ∈ STATUSES) by (unfold STATUSES; repeat constructor).
  split; [exact example_world_reachable|]. split; [exact Hin|].
  apply (proto_code_pollutes_prototype sample_NumberToString "admin" "admin123"
           t1 t1 io_ok io_ok "declined" VUndefined example_world
           example_world_reachable Hin).
Defined.
